(** * Signaling relay of app/main.py: registries, routing, cleanup

    A shallow embedding of the FastAPI signaling server in [app/main.py].
    The three module-level dictionaries ([active_rooms],
    [websocket_connections], [user_rooms]) are finite maps; the coroutines
    that touch them are state-passing functions.  Every coroutine is run to
    completion before the next one starts: the interleaving of coroutines at
    their [await] points is not part of this model.

    Modelling choices for what lies outside the file:
    - a [WebSocket] object is a handle (a number); the frames that
      [send_text] handed over without raising are kept in the transcript
      [sent]; [send_text] raises exactly on the handles in [closed];
    - [datetime.now()] and [uuid.uuid4()] are supplied by the environment;
    - [json.loads] is not re-implemented: an inbound text frame is given by
      what [json.loads] makes of it, [None] when it raises;
    - [CallRoom(room_id=...)] validates [room_id : str] strictly (pydantic
      rejects a value that is not a string, [None] included). *)

From stdpp Require Import gmap strings list fin_maps.

Set Warnings "-register-all".

(** ** Data model *)

Abbreviation WebSocket := nat (only parsing).

(** Values produced by [json.loads].  An object is given by its items;
    numbers are integers. *)
Inductive json :=
| JNull
| JBool (b : bool)
| JNum (z : Z)
| JStr (s : string)
| JArr (items : list json)
| JObj (fields : list (string * json)).

(** [class CallRoom(BaseModel)] *)
Record CallRoom := mkCallRoom {
  room_id : string;
  created_at : nat;
  participants : list string
}.

(** The dictionaries passed to [json.dumps] before [send_text]. *)
Inductive Message :=
| RoomJoined (room : string) (members : list string)
| UserJoined (user : string) (members : list string)
| UserLeft (user : string) (members : list string)
| RoomClosed
| Signal (type : string) (data : json) (from_user : string).

(** One frame accepted by [send_text]: the key it was looked up under in
    [websocket_connections], the handle, and the message. *)
Record Delivery := mkDelivery {
  to_user : string;
  via : WebSocket;
  body : Message
}.

Record State := mkState {
  active_rooms : gmap string CallRoom;
  websocket_connections : gmap string WebSocket;
  user_rooms : gmap string string;
  sent : list Delivery;
  closed : gset WebSocket
}.

Definition empty_state : State := mkState ∅ ∅ ∅ [] ∅.

Definition with_rooms (f : gmap string CallRoom → gmap string CallRoom) (s : State) : State :=
  mkState (f (active_rooms s)) (websocket_connections s) (user_rooms s) (sent s) (closed s).

Definition with_connections (f : gmap string WebSocket → gmap string WebSocket) (s : State) : State :=
  mkState (active_rooms s) (f (websocket_connections s)) (user_rooms s) (sent s) (closed s).

Definition with_user_rooms (f : gmap string string → gmap string string) (s : State) : State :=
  mkState (active_rooms s) (websocket_connections s) (f (user_rooms s)) (sent s) (closed s).

Definition with_sent (f : list Delivery → list Delivery) (s : State) : State :=
  mkState (active_rooms s) (websocket_connections s) (user_rooms s) (f (sent s)) (closed s).

Definition with_closed (f : gset WebSocket → gset WebSocket) (s : State) : State :=
  mkState (active_rooms s) (websocket_connections s) (user_rooms s) (sent s) (f (closed s)).

(** Exceptions that the modelled code can raise. *)
Inductive exn :=
| JSONDecodeError
| AttributeError
| TypeError
| ValidationError
| SendError
| KeyError
| HTTPException (status : nat).

Inductive outcome :=
| Returned
| Raised (e : exn).

(** ** Python primitives *)

(** Truth value of a [str]: only the empty string is false. *)
Definition truthy (x : string) : bool := bool_decide (x ≠ "").

(** [list.remove(x)]: drops the first occurrence. *)
Fixpoint list_remove_first (x : string) (l : list string) : list string :=
  match l with
  | [] => []
  | y :: l' => if decide (y = x) then l' else y :: list_remove_first x l'
  end.

(** [dict.get(key)] on a decoded object: [None] (here [JNull]) when absent. *)
Fixpoint dict_get (fields : list (string * json)) (key : string) : json :=
  match fields with
  | [] => JNull
  | (k, v) :: rest => if decide (k = key) then v else dict_get rest key
  end.

(** The participant list of a room, empty for an identifier with no room. *)
Definition participants_of (s : State) (r : string) : list string :=
  match active_rooms s !! r with
  | Some room => participants room
  | None => []
  end.

(** ** The coroutines *)

(** [await ws.send_text(...)]: [true] when the frame was accepted. *)
Definition send_text (user : string) (ws : WebSocket) (m : Message) (s : State) : bool * State :=
  if decide (ws ∈ closed s) then (false, s)
  else (true, with_sent (λ l, l ++ [mkDelivery user ws m]) s).

(** Body of the [for] loop of [broadcast_to_room]; the [try]/[except]
    swallows a failed send. *)
Definition broadcast_step (m : Message) (exclude_user : option string) (s : State) (participant_id : string) : State :=
  if decide (Some participant_id = exclude_user) then s
  else match websocket_connections s !! participant_id with
       | Some ws => (send_text participant_id ws m s).2
       | None => s
       end.

Definition broadcast_to_room (r : string) (m : Message) (exclude_user : option string) (s : State) : State :=
  match active_rooms s !! r with
  | None => s
  | Some room => foldl (broadcast_step m exclude_user) s (participants room)
  end.

(** [if room_id and room_id in active_rooms] tests the truth value of the
    identifier before the lookup; the emptiness test of the list comes
    after the [user-left] broadcast, which does not write the rooms. *)
Definition cleanup_user (user_id : string) (s : State) : State :=
  let s1 := with_connections (delete user_id) s in
  let s2 :=
    match user_rooms s1 !! user_id with
    | Some r =>
        if truthy r then
          match active_rooms s1 !! r with
          | Some room =>
              if decide (user_id ∈ participants room) then
                let ps := list_remove_first user_id (participants room) in
                let room' := mkCallRoom (room_id room) (created_at room) ps in
                let s' := with_rooms (insert r room') s1 in
                let s'' := broadcast_to_room r (UserLeft user_id ps) None s' in
                match ps with
                | [] => with_rooms (delete r) s''
                | _ :: _ => s''
                end
              else s1
          | None => s1
          end
        else s1
    | None => s1
    end in
  with_user_rooms (delete user_id) s2.

(** [rid] is what [message_data.get("room_id")] returned.  The keys of
    [active_rooms] are strings, so any other value is not a key: a list or
    an object cannot be hashed by [room_id not in active_rooms], the rest
    is refused by [CallRoom(room_id=...)]; both raise before anything is
    written.  The lookup after the insertion cannot fail.  The
    [room-joined] send is outside any [try], so its failure propagates. *)
Definition join_room (user_id : string) (rid : json) (now : nat) (s : State) : outcome * State :=
  match rid with
  | JStr r =>
      let s1 :=
        match active_rooms s !! r with
        | None => with_rooms (insert r (mkCallRoom r now [])) s
        | Some _ => s
        end in
      match active_rooms s1 !! r with
      | None => (Raised KeyError, s1)
      | Some room =>
          if decide (user_id ∈ participants room) then (Returned, s1)
          else
            let ps := participants room ++ [user_id] in
            let room' := mkCallRoom (room_id room) (created_at room) ps in
            let s2 := with_rooms (insert r room') s1 in
            let s3 := with_user_rooms (insert user_id r) s2 in
            let s4 := broadcast_to_room r (UserJoined user_id ps) (Some user_id) s3 in
            match websocket_connections s4 !! user_id with
            | Some ws =>
                match send_text user_id ws (RoomJoined r ps) s4 with
                | (true, s5) => (Returned, s5)
                | (false, s5) => (Raised SendError, s5)
                end
            | None => (Returned, s4)
            end
      end
  | JArr _ | JObj _ => (Raised TypeError, s)
  | JNull | JBool _ | JNum _ => (Raised ValidationError, s)
  end.

Definition signaling_types : list string := ["offer"; "answer"; "ice-candidate"].

(** Only a decoded object has [.get]; a value under ["type"] that is not
    one of the four strings matches neither branch. *)
Definition handle_signaling_message (user_id : string) (message_data : json) (now : nat) (s : State) : outcome * State :=
  match message_data with
  | JObj fields =>
      match dict_get fields "type" with
      | JStr msg_type =>
          if decide (msg_type = "join-room") then
            join_room user_id (dict_get fields "room_id") now s
          else if decide (msg_type ∈ signaling_types) then
            match user_rooms s !! user_id with
            | Some r =>
                if truthy r && bool_decide (is_Some (active_rooms s !! r)) then
                  (Returned,
                   broadcast_to_room r (Signal msg_type (dict_get fields "data") user_id)
                     (Some user_id) s)
                else (Returned, s)
            | None => (Returned, s)
            end
          else (Returned, s)
      | _ => (Returned, s)
      end
  | _ => (Raised AttributeError, s)
  end.

(** [websocket_endpoint], piece by piece.  Registration after [accept]: *)
Definition websocket_endpoint_accept (user_id : string) (ws : WebSocket) (s : State) : State :=
  with_connections (insert user_id ws) s.

(** One turn of the [while True] loop with both [except] clauses; the
    boolean tells whether the loop goes on. *)
Definition websocket_endpoint_receive (user_id : string) (data : option json) (now : nat) (s : State) : bool * State :=
  match data with
  | None => (false, cleanup_user user_id s)
  | Some message_data =>
      match handle_signaling_message user_id message_data now s with
      | (Returned, s') => (true, s')
      | (Raised _, s') => (false, cleanup_user user_id s')
      end
  end.

(** [receive_text] raising [WebSocketDisconnect]. *)
Definition websocket_endpoint_disconnect (user_id : string) (s : State) : State :=
  cleanup_user user_id s.

(** REST endpoints. *)
Definition create_room (uuid : string) (now : nat) (s : State) : State :=
  with_rooms (insert uuid (mkCallRoom uuid now [])) s.

Definition get_room (r : string) (s : State) : exn + CallRoom :=
  match active_rooms s !! r with
  | None => inl (HTTPException 404)
  | Some room => inr room
  end.

(** The loop runs over a copy of the list taken after the broadcast; the
    closing [del active_rooms[room_id]] raises when the key is gone. *)
Definition delete_room (r : string) (s : State) : outcome * State :=
  match active_rooms s !! r with
  | None => (Raised (HTTPException 404), s)
  | Some _ =>
      let s1 := broadcast_to_room r RoomClosed None s in
      let s2 := foldl (λ st participant_id, cleanup_user participant_id st) s1 (participants_of s1 r) in
      match active_rooms s2 !! r with
      | Some _ => (Returned, with_rooms (delete r) s2)
      | None => (Raised KeyError, s2)
      end
  end.

(** ** The server as a transition system *)

(** The dictionaries together with the running [websocket_endpoint]
    coroutines (handle to user identifier) and the next unused handle. *)
Record Server := mkServer {
  globals : State;
  handlers : gmap WebSocket string;
  next_ws : WebSocket
}.

Definition boot : Server := mkServer empty_state ∅ 0.

(** What the environment can do: open a session, deliver a text frame to
    a running endpoint, close a session, break a transport (its sends
    raise from then on), and call the two writing REST endpoints.  An
    event addressed to a handle with no running endpoint does nothing. *)
Inductive event :=
| Connect (user_id : string)
| Receive (ws : WebSocket) (data : option json) (now : nat)
| Disconnect (ws : WebSocket)
| TransportClosed (ws : WebSocket)
| PostRooms (uuid : string) (now : nat)
| DeleteRooms (r : string).

Definition step (sv : Server) (e : event) : Server :=
  match e with
  | Connect user_id =>
      mkServer (websocket_endpoint_accept user_id (next_ws sv) (globals sv))
               (<[next_ws sv := user_id]> (handlers sv)) (S (next_ws sv))
  | Receive ws data now =>
      match handlers sv !! ws with
      | Some user_id =>
          match websocket_endpoint_receive user_id data now (globals sv) with
          | (true, s') => mkServer s' (handlers sv) (next_ws sv)
          | (false, s') => mkServer s' (delete ws (handlers sv)) (next_ws sv)
          end
      | None => sv
      end
  | Disconnect ws =>
      match handlers sv !! ws with
      | Some user_id =>
          mkServer (websocket_endpoint_disconnect user_id (globals sv)) (delete ws (handlers sv)) (next_ws sv)
      | None => sv
      end
  | TransportClosed ws =>
      mkServer (with_closed (λ c, c ∪ {[ws]}) (globals sv)) (handlers sv) (next_ws sv)
  | PostRooms uuid now =>
      mkServer (create_room uuid now (globals sv)) (handlers sv) (next_ws sv)
  | DeleteRooms r =>
      mkServer (delete_room r (globals sv)).2 (handlers sv) (next_ws sv)
  end.

Definition run (trace : list event) : Server := foldl step boot trace.

Definition reachable (s : State) : Prop := ∃ trace, globals (run trace) = s.

(** Frames used in the examples. *)
Definition join_frame (r : string) : option json :=
  Some (JObj [("type", JStr "join-room"); ("room_id", JStr r)]).

Definition signal_frame (t : string) (payload : json) : option json :=
  Some (JObj [("type", JStr t); ("data", payload)]).

(** ** What a fan-out hands over *)

(** The frame, if any, that one turn of the broadcast loop hands to
    [send_text] for [participant_id]. *)
Definition fanout_one (s : State) (m : Message) (exclude_user : option string) (participant_id : string) : option Delivery :=
  if decide (Some participant_id = exclude_user) then None
  else match websocket_connections s !! participant_id with
       | Some ws => if decide (ws ∈ closed s) then None else Some (mkDelivery participant_id ws m)
       | None => None
       end.

Definition fanout (s : State) (m : Message) (exclude_user : option string) (ps : list string) : list Delivery :=
  omap (fanout_one s m exclude_user) ps.

(** The frame, if any, that a single [send_text] to [user]'s registered
    handle hands over. *)
Definition unicast (s : State) (user : string) (m : Message) : list Delivery :=
  match websocket_connections s !! user with
  | Some ws => if decide (ws ∈ closed s) then [] else [mkDelivery user ws m]
  | None => []
  end.

(** Frames handed over between state [s] and a later state [s']. *)
Definition new_frames (s s' : State) : list Delivery :=
  drop (length (sent s)) (sent s').

(** Frames of a transcript addressed to [p]. *)
Definition addressed_to (p : string) (ds : list Delivery) : list Delivery :=
  filter (λ d, to_user d = p) ds.

(** ** Bookkeeping over traces *)

(** The room a text frame asks to join, when it is a [join-room] frame
    with a string [room_id]. *)
Definition joins_room (data : option json) : option string :=
  match data with
  | Some (JObj fields) =>
      match dict_get fields "type", dict_get fields "room_id" with
      | JStr t, JStr r => if decide (t = "join-room") then Some r else None
      | _, _ => None
      end
  | _ => None
  end.

Definition after_frame (g : gset string) (data : option json) : gset string :=
  match joins_room data with
  | Some r => g ∖ {[r]}
  | None => g
  end.

(** History variable: the rooms made by [create_room] that have since
    been neither passed to [join_room] by a running endpoint nor deleted
    through [delete_room]. *)
Definition unjoined_step (sv : Server) (g : gset string) (e : event) : gset string :=
  match e with
  | PostRooms uuid _ => g ∪ {[uuid]}
  | Receive ws data _ =>
      match handlers sv !! ws with
      | Some _ => after_frame g data
      | None => g
      end
  | DeleteRooms r => g ∖ {[r]}
  | _ => g
  end.

Definition tracked_step (c : Server * gset string) (e : event) : Server * gset string :=
  (step c.1 e, unjoined_step c.1 c.2 e).

Definition created_unjoined (trace : list event) : gset string :=
  (foldl tracked_step (boot, ∅) trace).2.

(** ** Consistency of the dictionaries *)

(** Whoever [user_rooms] sends to a room is listed in that room. *)
Definition membership_consistent (s : State) : Prop :=
  ∀ u r, user_rooms s !! u = Some r → u ∈ participants_of s r.

(** No participant list names a user twice. *)
Definition rooms_distinct (s : State) : Prop :=
  ∀ r room, active_rooms s !! r = Some room → NoDup (participants room).

Definition registry_consistent (s : State) : Prop :=
  membership_consistent s ∧ rooms_distinct s.

(** Every room without participants is in [g]. *)
Definition empty_rooms_within (g : gset string) (s : State) : Prop :=
  ∀ r room, active_rooms s !! r = Some room → participants room = [] → r ∈ g.

(** Frames on which [websocket_endpoint_receive] leaves the loop through an
    [except] clause before any dictionary is written: text that
    [json.loads] rejects, a decoded value that is not an object, and a
    [join-room] object whose [room_id] is not a string. *)
Definition rejected_frame (data : option json) : bool :=
  match data with
  | None => true
  | Some (JObj fields) =>
      match dict_get fields "type", dict_get fields "room_id" with
      | JStr t, JStr _ => false
      | JStr t, _ => bool_decide (t = "join-room")
      | _, _ => false
      end
  | Some _ => true
  end.

(** Objects with no string under ["type"]. *)
Definition untyped_frame (data : option json) : bool :=
  match data with
  | Some (JObj fields) =>
      match dict_get fields "type" with
      | JStr _ => false
      | _ => true
      end
  | _ => false
  end.

(** ** Read-only endpoints *)

(** One entry of the answer of [GET /rooms]. *)
Record RoomSummary := mkRoomSummary {
  summary_room_id : string;
  summary_created_at : nat;
  participant_count : nat
}.

(** [list_rooms].  The comprehension walks [active_rooms.values()] in the
    insertion order of the dictionary; a finite map does not keep that
    order, so the answer is modelled up to the order of its entries. *)
Definition list_rooms (s : State) : list RoomSummary :=
  (λ room, mkRoomSummary (room_id room) (created_at room) (length (participants room)))
    <$> (map_to_list (active_rooms s)).*2.

(** The two counters in the answer of the health check [root]. *)
Record Health := mkHealth {
  health_active_rooms : nat;
  health_connected_users : nat
}.

Definition root (s : State) : Health :=
  mkHealth (size (active_rooms s)) (size (websocket_connections s)).

(** ** Runs in which [uuid4] never repeats a live identifier *)

(** Every [create_room] of the run, started in [sv], gets an identifier
    that no room carries at that moment. *)
Fixpoint fresh_from (sv : Server) (trace : list event) : bool :=
  match trace with
  | [] => true
  | e :: rest =>
      match e with
      | PostRooms uuid _ =>
          match active_rooms (globals sv) !! uuid with
          | None => true
          | Some _ => false
          end
      | _ => true
      end && fresh_from (step sv e) rest
  end.

Definition fresh_uuids (trace : list event) : bool := fresh_from boot trace.

(** Every registered handle belongs to a running endpoint of that user
    and was handed out before. *)
Definition connections_served (sv : Server) : Prop :=
  ∀ u ws, websocket_connections (globals sv) !! u = Some ws →
          handlers sv !! ws = Some u ∧ ws < next_ws sv.

(** Every room is stored under its own [room_id]. *)
Definition rooms_keyed (s : State) : Prop :=
  ∀ r room, active_rooms s !! r = Some room → room_id room = r.

(** ** Scenarios *)

(** A and B connect and join room "abc" (spec scenario 1). *)
Definition two_in_abc : list event :=
  [Connect "A"; Connect "B"; Receive 0 (join_frame "abc") 1; Receive 1 (join_frame "abc") 2].

(** A joins "r1" and then "r2" without leaving "r1". *)
Definition second_join : list event :=
  [Connect "A"; Receive 0 (join_frame "r1") 1; Receive 0 (join_frame "r2") 2].

(** A and B connect and join the room whose identifier is the empty
    string. *)
Definition two_in_unnamed : list event :=
  [Connect "A"; Connect "B"; Receive 0 (join_frame "") 1; Receive 1 (join_frame "") 2].

(** B opens two sessions under one identifier; the older one (handle 1)
    disconnects, which unregisters B while the newer endpoint (handle 2)
    keeps running. *)
Definition stale_session : list event :=
  [Connect "A"; Connect "B"; Connect "B"; Disconnect 1].

(** Projections of the record setters. *)
Ltac st_simpl :=
  cbn [active_rooms websocket_connections user_rooms sent closed
       with_rooms with_connections with_user_rooms with_sent with_closed
       room_id created_at participants fst snd default] in *.

(** * Properties *)

Example scenario_two_joins :
  sent (globals (run [Connect "A"; Connect "B"; Receive 0 (join_frame "abc") 1; Receive 1 (join_frame "abc") 2]))
  = [mkDelivery "A" 0 (RoomJoined "abc" ["A"]);
     mkDelivery "A" 0 (UserJoined "B" ["A"; "B"]);
     mkDelivery "B" 1 (RoomJoined "abc" ["A"; "B"])].
Proof. vm_compute. reflexivity. Qed.


(** Scenario 2 of the specification: A's offer reaches B as it is. *)
Example scenario_offer :
  let sv := run two_in_abc in
  let payload := JObj [("sdp", JStr "X")] in
  new_frames (globals sv) (globals (step sv (Receive 0 (signal_frame "offer" payload) 3)))
  = [mkDelivery "B" 1 (Signal "offer" payload "A")].
Proof. vm_compute. reflexivity. Qed.

(** Scenarios 3 and 4: A disconnects, B is told and the room stays with
    one participant; B disconnects and the room is gone. *)
Example scenario_disconnects :
  let sv := run two_in_abc in
  let sv1 := step sv (Disconnect 0) in
  let sv2 := step sv1 (Disconnect 1) in
  new_frames (globals sv) (globals sv1) = [mkDelivery "B" 1 (UserLeft "A" ["B"])] ∧
  get_room "abc" (globals sv1) = inr (mkCallRoom "abc" 1 ["B"]) ∧
  get_room "abc" (globals sv2) = inl (HTTPException 404).
Proof. vm_compute. repeat split; reflexivity. Qed.

Section Frame.
Implicit Types (s : State) (m : Message) (ps : list string).

Lemma with_sent_nil s : with_sent (λ l, l ++ []) s = s.
Proof. destruct s; unfold with_sent; simpl. by rewrite app_nil_r. Qed.

Lemma with_sent_app s (a b : list Delivery) :
  with_sent (λ l, l ++ b) (with_sent (λ l, l ++ a) s) = with_sent (λ l, l ++ (a ++ b)) s.
Proof. destruct s; unfold with_sent; simpl. by rewrite app_assoc. Qed.

Lemma fanout_with_sent s f m ex ps :
  fanout (with_sent f s) m ex ps = fanout s m ex ps.
Proof. reflexivity. Qed.

Lemma broadcast_step_sent s m ex p :
  broadcast_step m ex s p = with_sent (λ l, l ++ fanout s m ex [p]) s.
Proof.
  unfold broadcast_step, fanout, fanout_one, send_text; simpl.
  destruct (decide (Some p = ex)); [by rewrite with_sent_nil|].
  destruct (websocket_connections s !! p) as [ws|]; [|by rewrite with_sent_nil].
  destruct (decide (ws ∈ closed s)); [by rewrite with_sent_nil|done].
Qed.

Lemma broadcast_loop_sent ps : ∀ s m ex,
  foldl (broadcast_step m ex) s ps = with_sent (λ l, l ++ fanout s m ex ps) s.
Proof.
  induction ps as [|p ps IH]; intros s m ex; simpl.
  - by rewrite with_sent_nil.
  - rewrite IH, broadcast_step_sent, fanout_with_sent, with_sent_app.
    unfold fanout at 3; simpl.
    unfold fanout at 1; simpl.
    by destruct (fanout_one s m ex p).
Qed.

Lemma broadcast_to_room_sent s r m ex :
  broadcast_to_room r m ex s = with_sent (λ l, l ++ fanout s m ex (participants_of s r)) s.
Proof.
  unfold broadcast_to_room, participants_of.
  destruct (active_rooms s !! r); [apply broadcast_loop_sent | by rewrite with_sent_nil].
Qed.

Lemma fanout_elem s m ex ps d :
  d ∈ fanout s m ex ps ↔
  to_user d ∈ ps ∧ Some (to_user d) ≠ ex ∧ body d = m ∧
  websocket_connections s !! to_user d = Some (via d) ∧ via d ∉ closed s.
Proof.
  unfold fanout. rewrite list_elem_of_omap. split.
  - intros (p & Hp & Hd). unfold fanout_one in Hd.
    destruct (decide (Some p = ex)); [done|].
    destruct (websocket_connections s !! p) as [ws|] eqn:Hws; [|done].
    destruct (decide (ws ∈ closed s)); [done|].
    by simplify_eq.
  - intros (Hp & Hex & Hb & Hws & Hcl). exists (to_user d). split; [done|].
    unfold fanout_one. rewrite decide_False by done. rewrite Hws.
    rewrite decide_False by done. destruct d; simpl in *; by subst.
Qed.

Lemma fanout_addressed s m ex ps p :
  addressed_to p (fanout s m ex ps) = fanout s m ex (filter (λ q, q = p) ps).
Proof.
  unfold addressed_to, fanout.
  induction ps as [|q ps IH]; [done|].
  rewrite (filter_cons (λ q, q = p)). simpl.
  destruct (fanout_one s m ex q) as [d|] eqn:Hd.
  - assert (to_user d = q) as Hq.
    { unfold fanout_one in Hd. repeat case_match; by simplify_eq. }
    rewrite filter_cons, Hq.
    destruct (decide (q = p)); simpl; rewrite ?Hd; [f_equal|]; exact IH.
  - destruct (decide (q = p)); simpl; rewrite ?Hd; exact IH.
Qed.

Lemma filter_eq_absent ps p : p ∉ ps → filter (λ q, q = p) ps = [].
Proof.
  induction ps as [|y ps IH]; [done|].
  intros [? ?]%not_elem_of_cons. rewrite filter_cons.
  rewrite decide_False by done. by apply IH.
Qed.

Lemma filter_eq_NoDup ps p :
  NoDup ps → p ∈ ps → filter (λ q, q = p) ps = [p].
Proof.
  induction 1 as [|q ps Hq Hnd IH]; [by intros ?%elem_of_nil|].
  rewrite filter_cons. intros [->|Hin]%elem_of_cons.
  - rewrite decide_True by done. f_equal. by apply filter_eq_absent.
  - rewrite decide_False by (intros ->; done). by apply IH.
Qed.
End Frame.

Section Cleanup.
Implicit Types (s : State) (u r : string).

Lemma truthy_ne r : truthy r = true ↔ r ≠ "".
Proof. unfold truthy. apply bool_decide_eq_true. Qed.

Lemma list_remove_first_subseteq u (l : list string) x :
  x ∈ list_remove_first u l → x ∈ l.
Proof.
  induction l as [|y l IH]; simpl; [done|].
  destruct (decide (y = u)); rewrite ?elem_of_cons; tauto.
Qed.

Lemma list_remove_first_other u (l : list string) x :
  x ≠ u → x ∈ l → x ∈ list_remove_first u l.
Proof.
  intros Hne. induction l as [|y l IH]; simpl; [done|].
  destruct (decide (y = u)) as [->|]; rewrite ?elem_of_cons; intuition congruence.
Qed.

Lemma list_remove_first_NoDup u (l : list string) :
  NoDup l → NoDup (list_remove_first u l) ∧ u ∉ list_remove_first u l.
Proof.
  induction 1 as [|y l Hy Hnd [IH1 IH2]]; simpl.
  - split; [constructor | apply not_elem_of_nil].
  - destruct (decide (y = u)) as [->|Hne]; [done|]. split.
    + constructor; [|done]. intros ?%list_remove_first_subseteq. done.
    + rewrite not_elem_of_cons. done.
Qed.

Lemma cleanup_user_connections u s :
  websocket_connections (cleanup_user u s) = delete u (websocket_connections s).
Proof.
  unfold cleanup_user. simpl.
  repeat case_match; rewrite ?broadcast_to_room_sent; reflexivity.
Qed.

Lemma cleanup_user_user_rooms u s :
  user_rooms (cleanup_user u s) = delete u (user_rooms s).
Proof.
  unfold cleanup_user. simpl.
  repeat case_match; rewrite ?broadcast_to_room_sent; reflexivity.
Qed.

Lemma cleanup_user_closed u s : closed (cleanup_user u s) = closed s.
Proof.
  unfold cleanup_user. simpl.
  repeat case_match; rewrite ?broadcast_to_room_sent; reflexivity.
Qed.

(** The only room [cleanup_user] writes is the one [user_rooms] names,
    and only when its identifier is non-empty and lists the user. *)
Lemma cleanup_user_rooms u s :
  active_rooms (cleanup_user u s) = active_rooms s ∨
  ∃ r room,
    user_rooms s !! u = Some r ∧ r ≠ "" ∧
    active_rooms s !! r = Some room ∧ u ∈ participants room ∧
    active_rooms (cleanup_user u s) =
      match list_remove_first u (participants room) with
      | [] => delete r (active_rooms s)
      | ps => <[r := mkCallRoom (room_id room) (created_at room) ps]> (active_rooms s)
      end.
Proof.
  unfold cleanup_user. simpl.
  destruct (user_rooms s !! u) as [r|] eqn:Hr; [|by left].
  destruct (truthy r) eqn:Ht; [|by left].
  destruct (active_rooms s !! r) as [room|] eqn:Hroom; [|by left].
  destruct (decide (u ∈ participants room)) as [Hin|]; [|by left].
  right. exists r, room. apply truthy_ne in Ht. repeat split; try done.
  rewrite broadcast_to_room_sent.
  destruct (list_remove_first u (participants room)); simpl; [|done].
  by rewrite delete_insert_eq.
Qed.

Lemma cleanup_user_room_other u s r :
  user_rooms s !! u ≠ Some r →
  active_rooms (cleanup_user u s) !! r = active_rooms s !! r.
Proof.
  intros Hr. destruct (cleanup_user_rooms u s) as [->|(r' & room & ? & ? & ? & ? & ->)]; [done|].
  assert (r' ≠ r) by congruence.
  destruct (list_remove_first u (participants room)).
  - by rewrite lookup_delete_ne.
  - by rewrite lookup_insert_ne.
Qed.

(** A room that survives [cleanup_user] is either untouched or lost
    one occurrence of the user and still has someone in it. *)
Lemma cleanup_user_room_lookup u s r room' :
  active_rooms (cleanup_user u s) !! r = Some room' →
  ∃ room, active_rooms s !! r = Some room ∧
    (room' = room ∨
     (participants room' = list_remove_first u (participants room) ∧
      participants room' ≠ [])).
Proof.
  destruct (cleanup_user_rooms u s) as [->|(r' & room & ? & ? & Hroom & ? & ->)]; [by eauto|].
  destruct (list_remove_first u (participants room)) as [|p ps] eqn:Hps.
  - intros [? ?]%lookup_delete_Some. eauto.
  - destruct (decide (r' = r)) as [->|].
    + rewrite lookup_insert_eq. intros [= <-]. exists room. split; [done|].
      right. simpl. by rewrite Hps.
    + rewrite lookup_insert_ne by done. eauto.
Qed.

Lemma cleanup_user_empty_rooms g u s :
  empty_rooms_within g s → empty_rooms_within g (cleanup_user u s).
Proof.
  intros Hinv r room' Hl Hnil.
  destruct (cleanup_user_room_lookup _ _ _ _ Hl) as (room & Hroom & [->|[_ ?]]); [|done].
  by eapply Hinv.
Qed.

Lemma cleanup_user_distinct u s :
  rooms_distinct s → rooms_distinct (cleanup_user u s).
Proof.
  intros Hinv r room' Hl.
  destruct (cleanup_user_room_lookup _ _ _ _ Hl) as (room & Hroom & [->|[-> _]]).
  - by eapply Hinv.
  - by apply list_remove_first_NoDup, (Hinv r).
Qed.

Lemma cleanup_user_membership u s :
  membership_consistent s → membership_consistent (cleanup_user u s).
Proof.
  intros Hinv v r. rewrite cleanup_user_user_rooms.
  intros [Hvu Hv]%lookup_delete_Some. specialize (Hinv v r Hv).
  unfold participants_of in *.
  destruct (cleanup_user_rooms u s) as [->|(r' & room & ? & ? & Hroom & ? & ->)]; [done|].
  destruct (decide (r' = r)) as [->|].
  - rewrite Hroom in Hinv.
    pose proof (list_remove_first_other u _ v (not_eq_sym Hvu) Hinv) as Hin.
    destruct (list_remove_first u (participants room)) as [|p ps]; [by apply elem_of_nil in Hin|].
    by rewrite lookup_insert_eq.
  - destruct (list_remove_first u (participants room)).
    + by rewrite lookup_delete_ne.
    + by rewrite lookup_insert_ne.
Qed.

Lemma cleanup_user_consistent u s :
  registry_consistent s → registry_consistent (cleanup_user u s).
Proof.
  intros [? ?]. split; [by apply cleanup_user_membership | by apply cleanup_user_distinct].
Qed.
End Cleanup.

Section Join.
Implicit Types (s : State) (u r : string).

Lemma fanout_excluded_last s m u ps :
  fanout s m (Some u) (ps ++ [u]) = fanout s m (Some u) ps.
Proof.
  unfold fanout. rewrite omap_app. simpl. unfold fanout_one at 2.
  rewrite decide_True by done. apply app_nil_r.
Qed.

(** Re-joining a room one is listed in does nothing at all. *)
Lemma join_room_member u r now s :
  u ∈ participants_of s r → join_room u (JStr r) now s = (Returned, s).
Proof.
  unfold participants_of, join_room.
  destruct (active_rooms s !! r) as [room|] eqn:Hroom; [|by intros ?%elem_of_nil].
  intros Hin. rewrite Hroom. by rewrite decide_True.
Qed.

(** A first join, written out field by field. *)
Lemma join_room_new u r now s :
  u ∉ participants_of s r →
  let base := default (mkCallRoom r now []) (active_rooms s !! r) in
  let ps := participants_of s r ++ [u] in
  (join_room u (JStr r) now s).2 =
    mkState (<[r := mkCallRoom (room_id base) (created_at base) ps]> (active_rooms s))
            (websocket_connections s)
            (<[u := r]> (user_rooms s))
            (sent s ++ fanout s (UserJoined u ps) (Some u) (participants_of s r)
                    ++ unicast s u (RoomJoined r ps))
            (closed s).
Proof.
  intros Hin base ps.
  assert (∀ s1 room, active_rooms s1 !! r = Some room →
            participants room = participants_of s r →
            websocket_connections s1 = websocket_connections s →
            closed s1 = closed s →
    (if decide (u ∈ participants room) then (Returned, s1)
     else
       let ps := participants room ++ [u] in
       let room' := mkCallRoom (room_id room) (created_at room) ps in
       let s2 := with_rooms (insert r room') s1 in
       let s3 := with_user_rooms (insert u r) s2 in
       let s4 := broadcast_to_room r (UserJoined u ps) (Some u) s3 in
       match websocket_connections s4 !! u with
       | Some ws =>
           match send_text u ws (RoomJoined r ps) s4 with
           | (true, s5) => (Returned, s5)
           | (false, s5) => (Raised SendError, s5)
           end
       | None => (Returned, s4)
       end).2 =
    mkState (<[r := mkCallRoom (room_id room) (created_at room) ps]> (active_rooms s1))
            (websocket_connections s)
            (<[u := r]> (user_rooms s1))
            (sent s1 ++ fanout s (UserJoined u ps) (Some u) (participants_of s r)
                     ++ unicast s u (RoomJoined r ps))
            (closed s)) as Hbody.
  { intros s1 room Hroom Hps Hconn Hclosed.
    rewrite decide_False by (by rewrite Hps).
    cbv zeta. rewrite broadcast_to_room_sent.
    unfold participants_of at 1 2 3. st_simpl. rewrite lookup_insert_eq. st_simpl.
    rewrite Hps. fold ps. rewrite Hconn.
    replace (fanout _ (UserJoined u ps) (Some u) ps)
      with (fanout s (UserJoined u ps) (Some u) (participants_of s r)).
    2:{ unfold ps. rewrite <- (fanout_excluded_last s).
        unfold fanout, fanout_one. st_simpl. by rewrite Hconn, Hclosed. }
    unfold unicast, send_text. st_simpl. rewrite Hclosed.
    destruct (websocket_connections s !! u) as [ws|]; st_simpl.
    - destruct (decide (ws ∈ closed s)); unfold with_sent, with_user_rooms, with_rooms;
        st_simpl; f_equal; by rewrite <- ?app_assoc, ?app_nil_r.
    - unfold with_sent, with_user_rooms, with_rooms; st_simpl.
      f_equal; by rewrite ?app_nil_r. }
  unfold join_room. subst base.
  destruct (active_rooms s !! r) as [room|] eqn:Hroom.
  - rewrite Hroom. etrans; [apply (Hbody s room)|]; try done.
    unfold participants_of. by rewrite Hroom.
  - st_simpl. rewrite lookup_insert_eq.
    etrans; [apply (Hbody _ (mkCallRoom r now []))|]; st_simpl.
    + by rewrite lookup_insert_eq.
    + unfold participants_of. by rewrite Hroom.
    + done.
    + done.
    + by rewrite insert_insert_eq.
Qed.

Lemma join_room_not_string u rid now s :
  (∀ r, rid ≠ JStr r) → ∃ e, join_room u rid now s = (Raised e, s).
Proof. intros Hrid. destruct rid; simpl; eauto. by destruct (Hrid s0). Qed.

Lemma join_room_listed u r now s :
  u ∈ participants_of (join_room u (JStr r) now s).2 r.
Proof.
  destruct (decide (u ∈ participants_of s r)) as [Hin|Hout].
  - by rewrite join_room_member.
  - rewrite (join_room_new _ _ _ _ Hout). unfold participants_of at 1. simpl.
    rewrite lookup_insert_eq. simpl. apply elem_of_app. right. by apply list_elem_of_singleton.
Qed.

Lemma join_room_room_other u r r' now s :
  r ≠ r' → active_rooms (join_room u (JStr r) now s).2 !! r' = active_rooms s !! r'.
Proof.
  intros Hne. destruct (decide (u ∈ participants_of s r)) as [Hin|Hout].
  - by rewrite join_room_member.
  - rewrite (join_room_new _ _ _ _ Hout). simpl. by rewrite lookup_insert_ne.
Qed.

Lemma join_room_empty_rooms g u r now s :
  empty_rooms_within g s →
  empty_rooms_within (g ∖ {[r]}) (join_room u (JStr r) now s).2.
Proof.
  intros Hinv r' room' Hl Hnil. destruct (decide (r = r')) as [<-|Hne].
  - pose proof (join_room_listed u r now s) as Hin.
    unfold participants_of in Hin. rewrite Hl, Hnil in Hin. by apply elem_of_nil in Hin.
  - rewrite join_room_room_other in Hl by done.
    apply elem_of_difference. split; [by eapply Hinv|]. by intros ->%elem_of_singleton.
Qed.

Lemma join_room_distinct u r now s :
  rooms_distinct s → rooms_distinct (join_room u (JStr r) now s).2.
Proof.
  intros Hinv. destruct (decide (u ∈ participants_of s r)) as [Hin|Hout].
  - by rewrite join_room_member.
  - rewrite (join_room_new _ _ _ _ Hout). intros r' room'. simpl.
    destruct (decide (r = r')) as [<-|Hne].
    + rewrite lookup_insert_eq. intros [= <-]. simpl.
      apply NoDup_app. split; [|split].
      * unfold participants_of. destruct (active_rooms s !! r) eqn:E; [by eapply Hinv | constructor].
      * intros x Hx ->%list_elem_of_singleton. done.
      * apply NoDup_singleton.
    + rewrite lookup_insert_ne by done. apply Hinv.
Qed.

Lemma join_room_membership u r now s :
  membership_consistent s → membership_consistent (join_room u (JStr r) now s).2.
Proof.
  intros Hinv. destruct (decide (u ∈ participants_of s r)) as [Hin|Hout].
  - by rewrite join_room_member.
  - intros v r'. pose proof (join_room_listed u r now s) as Hu.
    rewrite (join_room_new _ _ _ _ Hout) in *. simpl.
    destruct (decide (u = v)) as [<-|Hne].
    + rewrite lookup_insert_eq. by intros [= <-].
    + rewrite lookup_insert_ne by done. intros Hv. specialize (Hinv v r' Hv).
      unfold participants_of in *. simpl in *.
      destruct (decide (r = r')) as [<-|Hr].
      * rewrite lookup_insert_eq. simpl. apply elem_of_app. by left.
      * by rewrite lookup_insert_ne.
Qed.
End Join.

Section Routing.
Implicit Types (s : State) (u r : string).

Lemma broadcast_to_room_rooms r m ex s :
  active_rooms (broadcast_to_room r m ex s) = active_rooms s.
Proof. by rewrite broadcast_to_room_sent. Qed.

Lemma broadcast_to_room_connections r m ex s :
  websocket_connections (broadcast_to_room r m ex s) = websocket_connections s.
Proof. by rewrite broadcast_to_room_sent. Qed.

Lemma broadcast_to_room_user_rooms r m ex s :
  user_rooms (broadcast_to_room r m ex s) = user_rooms s.
Proof. by rewrite broadcast_to_room_sent. Qed.

Lemma broadcast_to_room_closed r m ex s :
  closed (broadcast_to_room r m ex s) = closed s.
Proof. by rewrite broadcast_to_room_sent. Qed.

(** A frame either reaches [join_room] with a string, or leaves the
    three dictionaries as they were. *)
Lemma handle_signaling_message_cases u md now s :
  (∃ r, joins_room (Some md) = Some r ∧
        handle_signaling_message u md now s = join_room u (JStr r) now s) ∨
  (joins_room (Some md) = None ∧
   let s' := (handle_signaling_message u md now s).2 in
   active_rooms s' = active_rooms s ∧
   websocket_connections s' = websocket_connections s ∧
   user_rooms s' = user_rooms s ∧ closed s' = closed s).
Proof.
  unfold handle_signaling_message, joins_room.
  destruct md as [| | | |?|fields]; try (by right).
  destruct (dict_get fields "type") as [| | |t| |]; try (by right).
  destruct (decide (t = "join-room")) as [->|Hne].
  - destruct (dict_get fields "room_id") as [| | |r| |] eqn:Hrid; try (by right).
    left. by exists r.
  - right. split; [by repeat case_match|].
    repeat case_match; st_simpl;
      rewrite ?broadcast_to_room_rooms, ?broadcast_to_room_connections,
              ?broadcast_to_room_user_rooms, ?broadcast_to_room_closed; done.
Qed.

Lemma websocket_endpoint_receive_empty_rooms g u data now s :
  empty_rooms_within g s →
  empty_rooms_within (after_frame g data) (websocket_endpoint_receive u data now s).2.
Proof.
  intros Hinv. unfold websocket_endpoint_receive, after_frame.
  destruct data as [md|]; [|by apply cleanup_user_empty_rooms].
  assert (empty_rooms_within
            (match joins_room (Some md) with Some r => g ∖ {[r]} | None => g end)
            (handle_signaling_message u md now s).2) as Hh.
  { destruct (handle_signaling_message_cases u md now s) as [(r & -> & ->)|(-> & Hr & _)].
    - by apply join_room_empty_rooms.
    - intros r room. rewrite Hr. apply Hinv. }
  destruct (handle_signaling_message u md now s) as [[|e] s']; st_simpl; [done|].
  by apply cleanup_user_empty_rooms.
Qed.

Lemma websocket_endpoint_receive_distinct u data now s :
  rooms_distinct s → rooms_distinct (websocket_endpoint_receive u data now s).2.
Proof.
  intros Hinv. unfold websocket_endpoint_receive.
  destruct data as [md|]; [|by apply cleanup_user_distinct].
  assert (rooms_distinct (handle_signaling_message u md now s).2) as Hh.
  { destruct (handle_signaling_message_cases u md now s) as [(r & _ & ->)|(_ & Hr & _)].
    - by apply join_room_distinct.
    - intros r room. rewrite Hr. apply Hinv. }
  destruct (handle_signaling_message u md now s) as [[|e] s']; st_simpl; [done|].
  by apply cleanup_user_distinct.
Qed.

Lemma cleanup_loop_empty_rooms g (ps : list string) : ∀ s,
  empty_rooms_within g s →
  empty_rooms_within g (foldl (λ st p, cleanup_user p st) s ps).
Proof.
  induction ps as [|p ps IH]; intros s Hinv; simpl; [done|].
  by apply IH, cleanup_user_empty_rooms.
Qed.

Lemma cleanup_loop_distinct (ps : list string) : ∀ s,
  rooms_distinct s → rooms_distinct (foldl (λ st p, cleanup_user p st) s ps).
Proof.
  induction ps as [|p ps IH]; intros s Hinv; simpl; [done|].
  by apply IH, cleanup_user_distinct.
Qed.

(** Whatever [delete_room] answers, rooms are only removed or shrunk. *)
Lemma delete_room_empty_rooms g r s :
  empty_rooms_within g s → empty_rooms_within g (delete_room r s).2.
Proof.
  intros Hinv. unfold delete_room.
  destruct (active_rooms s !! r) eqn:Hr; [|done].
  set (s2 := foldl _ _ _).
  assert (empty_rooms_within g s2) as H2.
  { apply cleanup_loop_empty_rooms. intros r' room'.
    rewrite broadcast_to_room_rooms. apply Hinv. }
  destruct (active_rooms s2 !! r); st_simpl; [|done].
  intros r' room'. st_simpl. intros [_ Hl]%lookup_delete_Some. by apply H2.
Qed.

Lemma delete_room_distinct r s :
  rooms_distinct s → rooms_distinct (delete_room r s).2.
Proof.
  intros Hinv. unfold delete_room.
  destruct (active_rooms s !! r) eqn:Hr; [|done].
  set (s2 := foldl _ _ _).
  assert (rooms_distinct s2) as H2.
  { apply cleanup_loop_distinct. intros r' room'.
    rewrite broadcast_to_room_rooms. apply Hinv. }
  destruct (active_rooms s2 !! r); st_simpl; [|done].
  intros r' room'. st_simpl. intros [_ Hl]%lookup_delete_Some. by eapply H2.
Qed.

Lemma delete_room_gone r s : active_rooms (delete_room r s).2 !! r = None.
Proof.
  unfold delete_room. destruct (active_rooms s !! r) eqn:Hr; [|done].
  set (s2 := foldl _ _ _).
  destruct (active_rooms s2 !! r) eqn:H2; st_simpl; [|done].
  apply lookup_delete_eq.
Qed.
End Routing.

Section Traces.
Implicit Types (sv : Server) (g : gset string) (e : event).

Lemma step_empty_rooms sv g e :
  empty_rooms_within g (globals sv) →
  empty_rooms_within (unjoined_step sv g e) (globals (step sv e)).
Proof.
  intros Hinv. destruct e as [u|ws data now|ws|ws|uuid now|r]; simpl.
  - done.
  - destruct (handlers sv !! ws) as [u|]; [|done].
    pose proof (websocket_endpoint_receive_empty_rooms g u data now _ Hinv) as H.
    by destruct (websocket_endpoint_receive u data now (globals sv)) as [[|] s'].
  - destruct (handlers sv !! ws) as [u|]; [|done]. by apply cleanup_user_empty_rooms.
  - done.
  - intros r room. unfold create_room. st_simpl.
    destruct (decide (uuid = r)) as [->|Hne].
    + intros _ _. apply elem_of_union. right. by apply elem_of_singleton.
    + rewrite lookup_insert_ne by done. intros. apply elem_of_union. left. by eapply Hinv.
  - intros r' room' Hl Hnil. apply elem_of_difference. split.
    + by eapply delete_room_empty_rooms.
    + intros ->%elem_of_singleton. by rewrite delete_room_gone in Hl.
Qed.

Lemma step_distinct sv e :
  rooms_distinct (globals sv) → rooms_distinct (globals (step sv e)).
Proof.
  intros Hinv. destruct e as [u|ws data now|ws|ws|uuid now|r]; simpl.
  - done.
  - destruct (handlers sv !! ws) as [u|]; [|done].
    pose proof (websocket_endpoint_receive_distinct u data now _ Hinv) as H.
    by destruct (websocket_endpoint_receive u data now (globals sv)) as [[|] s'].
  - destruct (handlers sv !! ws) as [u|]; [|done]. by apply cleanup_user_distinct.
  - done.
  - intros r room. unfold create_room. st_simpl.
    destruct (decide (uuid = r)) as [->|Hne].
    + rewrite lookup_insert_eq. intros [= <-]. constructor.
    + rewrite lookup_insert_ne by done. apply Hinv.
  - by apply delete_room_distinct.
Qed.

Lemma tracked_run trace : (foldl tracked_step (boot, ∅) trace).1 = run trace.
Proof.
  unfold run. induction trace as [|e trace IH] using rev_ind; [done|].
  rewrite !foldl_snoc. simpl. by rewrite IH.
Qed.

Lemma run_empty_rooms trace :
  empty_rooms_within (created_unjoined trace) (globals (run trace)).
Proof.
  unfold created_unjoined. rewrite <- tracked_run.
  induction trace as [|e trace IH] using rev_ind.
  - intros r room. simpl. by rewrite lookup_empty.
  - rewrite foldl_snoc. by apply step_empty_rooms.
Qed.

Lemma run_distinct trace : rooms_distinct (globals (run trace)).
Proof.
  unfold run. induction trace as [|e trace IH] using rev_ind.
  - intros r room. simpl. by rewrite lookup_empty.
  - rewrite foldl_snoc. by apply step_distinct.
Qed.

Lemma reachable_distinct s : reachable s → rooms_distinct s.
Proof. intros [trace <-]. apply run_distinct. Qed.
End Traces.

(** ** Cleanup *)

Lemma cleanup_user_unregisters u s :
  websocket_connections (cleanup_user u s) !! u = None ∧
  user_rooms (cleanup_user u s) !! u = None.
Proof.
  rewrite cleanup_user_connections, cleanup_user_user_rooms.
  split; apply lookup_delete_eq.
Qed.

(** In the room that [user_rooms] names, when its identifier is not the
    empty string, the user is gone after [cleanup_user]. *)
Lemma cleanup_user_leaves_current_room u r s :
  rooms_distinct s → user_rooms s !! u = Some r → r ≠ "" →
  u ∉ participants_of (cleanup_user u s) r.
Proof.
  intros Hnd Hr Hne. apply truthy_ne in Hne.
  unfold participants_of, cleanup_user. st_simpl. rewrite Hr, Hne.
  destruct (active_rooms s !! r) as [room|] eqn:Hroom.
  - destruct (decide (u ∈ participants room)) as [Hin|Hout].
    + rewrite broadcast_to_room_sent.
      pose proof (list_remove_first_NoDup u _ (Hnd r room Hroom)) as [_ Hout].
      destruct (list_remove_first u (participants room)) as [|p ps]; st_simpl.
      * rewrite lookup_delete_eq. apply not_elem_of_nil.
      * by rewrite lookup_insert_eq.
    + st_simpl. by rewrite Hroom.
  - st_simpl. rewrite Hroom. apply not_elem_of_nil.
Qed.

(** C1 (the code does not meet it): after [cleanup_user] the user is
    absent from the connections map, from every participant list and from
    the membership map.  The run below ends in a reachable state where A
    was sent to "r1" and then to "r2"; [cleanup_user] unregisters A and
    empties "r2", yet A is still listed in "r1". *)
Lemma cleanup_user_leaves_stale_participant :
  let s := globals (run second_join) in
  reachable s ∧
  participants_of s "r1" = ["A"] ∧ user_rooms s !! "A" = Some "r2" ∧
  let s' := cleanup_user "A" s in
  websocket_connections s' !! "A" = None ∧ user_rooms s' !! "A" = None ∧
  active_rooms s' !! "r2" = None ∧ participants_of s' "r1" = ["A"].
Proof.
  intros s. split; [by exists second_join|].
  vm_compute. repeat split; reflexivity.
Qed.

(** The same routine skips the room whose identifier is the empty string,
    because that string is false in [if room_id and ...]. *)
Lemma cleanup_user_skips_unnamed_room :
  let s := globals (run two_in_unnamed) in
  user_rooms s !! "A" = Some "" ∧
  participants_of (cleanup_user "A" s) "" = ["A"; "B"].
Proof. vm_compute. split; reflexivity. Qed.

(** ** Broadcast *)

Lemma new_frames_app s s' (ds : list Delivery) :
  sent s' = sent s ++ ds → new_frames s s' = ds.
Proof. unfold new_frames. intros ->. by rewrite drop_app_length. Qed.

Lemma unicast_registered s p ws m :
  websocket_connections s !! p = Some ws → ws ∉ closed s →
  unicast s p m = [mkDelivery p ws m].
Proof. intros Hws Hcl. unfold unicast. rewrite Hws. by rewrite decide_False. Qed.

Lemma unicast_unreachable s p m :
  (websocket_connections s !! p = None ∨
   ∃ ws, websocket_connections s !! p = Some ws ∧ ws ∈ closed s) →
  unicast s p m = [].
Proof.
  unfold unicast. intros [->|(ws & -> & Hcl)]; [done|]. by rewrite decide_True.
Qed.

Lemma fanout_single s m ex p :
  Some p ≠ ex → fanout s m ex [p] = unicast s p m.
Proof.
  intros Hex. unfold fanout, fanout_one, unicast. simpl.
  rewrite decide_False by done.
  destruct (websocket_connections s !! p) as [ws|]; [|done].
  by destruct (decide (ws ∈ closed s)).
Qed.

Lemma fanout_addressed_participant s m ex ps p :
  NoDup ps → p ∈ ps → Some p ≠ ex →
  addressed_to p (fanout s m ex ps) = unicast s p m.
Proof.
  intros Hnd Hin Hex.
  by rewrite fanout_addressed, filter_eq_NoDup, fanout_single.
Qed.

Lemma fanout_addressed_excluded s m ps p :
  addressed_to p (fanout s m (Some p) ps) = [].
Proof.
  unfold addressed_to. induction ps as [|q ps IH]; [done|].
  unfold fanout in *. simpl. unfold fanout_one at 1.
  destruct (decide (Some q = Some p)) as [|Hne]; [done|].
  destruct (websocket_connections s !! q) as [ws|]; [|done].
  destruct (decide (ws ∈ closed s)); [done|].
  rewrite filter_cons. simpl. rewrite decide_False by congruence. done.
Qed.

(** C2 (as amended): in every reachable state, one call of
    [broadcast_to_room] hands over only frames that carry the message, go
    to participants of the room and never to the excluded user; a
    participant other than the excluded user gets the message exactly once
    when it has a registered handle whose transport accepts the send, and
    gets nothing when it has no registered handle or the send raises. *)
Theorem broadcast_to_room_deliveries s r m ex :
  reachable s →
  let s' := broadcast_to_room r m ex s in
  let new := new_frames s s' in
  sent s' = sent s ++ new ∧
  (∀ d, d ∈ new →
     body d = m ∧ to_user d ∈ participants_of s r ∧ Some (to_user d) ≠ ex) ∧
  (∀ p ws, p ∈ participants_of s r → Some p ≠ ex →
     websocket_connections s !! p = Some ws → ws ∉ closed s →
     addressed_to p new = [mkDelivery p ws m]) ∧
  (∀ p, p ∈ participants_of s r →
     (websocket_connections s !! p = None ∨
      ∃ ws, websocket_connections s !! p = Some ws ∧ ws ∈ closed s) →
     addressed_to p new = []).
Proof.
  intros Hreach s' new.
  assert (NoDup (participants_of s r)) as Hnd.
  { unfold participants_of. destruct (active_rooms s !! r) eqn:Hr; [|constructor].
    by eapply reachable_distinct. }
  assert (sent s' = sent s ++ fanout s m ex (participants_of s r)) as Hsent.
  { unfold s'. by rewrite broadcast_to_room_sent. }
  assert (new = fanout s m ex (participants_of s r)) as ->.
  { by apply new_frames_app. }
  split; [done|]. split; [|split].
  - intros d Hd%fanout_elem. tauto.
  - intros p ws Hin Hex Hws Hcl.
    rewrite fanout_addressed_participant by done. by apply unicast_registered.
  - intros p Hin Hun. destruct (decide (Some p = ex)) as [<-|Hex].
    + apply fanout_addressed_excluded.
    + rewrite fanout_addressed_participant by done. by apply unicast_unreachable.
Qed.

Lemma broadcast_to_room_deliveries_witness :
  let s := globals (run two_in_abc) in
  let offer := Signal "offer" (JObj [("sdp", JStr "X")]) "A" in
  let new := new_frames s (broadcast_to_room "abc" offer (Some "A") s) in
  reachable s ∧ addressed_to "B" new = [mkDelivery "B" 1 offer].
Proof.
  split; [by exists two_in_abc|].
  apply (broadcast_to_room_deliveries (globals (run two_in_abc)) "abc"
           (Signal "offer" (JObj [("sdp", JStr "X")]) "A") (Some "A")).
  - by exists two_in_abc.
  - vm_compute. apply list_elem_of_In. simpl. tauto.
  - vm_compute. congruence.
  - vm_compute. reflexivity.
  - vm_compute. intros H. discriminate.
Defined.

(** C2 (as stated, refuted): B is a participant of "abc" other than the
    excluded sender A, but B's only registration was removed when its
    older session closed; the broadcast hands B nothing. *)
Lemma broadcast_to_room_skips_unregistered :
  let s := globals (run (stale_session ++
             [Receive 0 (join_frame "abc") 1; Receive 2 (join_frame "abc") 2])) in
  let offer := Signal "offer" (JObj [("sdp", JStr "X")]) "A" in
  participants_of s "abc" = ["A"; "B"] ∧
  handlers (run stale_session) !! 2 = Some "B" ∧
  websocket_connections s !! "B" = None ∧
  addressed_to "B" (new_frames s (broadcast_to_room "abc" offer (Some "A") s)) = [].
Proof. vm_compute. repeat split; reflexivity. Qed.

(** ** Room deletion *)

(** C3 (the code does not meet it): [delete_room] on an existing room
    returns success.  With A and B joined to "abc", both get
    [room-closed], both are cleaned up and the room is gone, but the last
    [cleanup_user] has already removed the emptied room, so the final
    [del active_rooms[room_id]] raises [KeyError]. *)
Lemma delete_room_raises_after_cleanup :
  let s := globals (run two_in_abc) in
  reachable s ∧
  participants_of s "abc" = ["A"; "B"] ∧
  delete_room "abc" s =
    (Raised KeyError,
     mkState ∅ ∅ ∅
       (sent s ++ [mkDelivery "A" 0 RoomClosed; mkDelivery "B" 1 RoomClosed;
                   mkDelivery "B" 1 (UserLeft "A" ["B"])])
       ∅) ∧
  get_room "abc" (delete_room "abc" s).2 = inl (HTTPException 404).
Proof.
  intros s. split; [by exists two_in_abc|].
  vm_compute. repeat split; reflexivity.
Qed.

(** ** Joining *)

(** C4 (as amended): a user mapped to room [a] who joins a different room
    [b] in whose list it is not yet: the membership map then sends the
    user to [b], the record of [a] is untouched, and it is still untouched
    after a later [cleanup_user], so an entry of the user in [a] stays. *)
Theorem join_room_overwrites_membership s u a b now :
  user_rooms s !! u = Some a → a ≠ b → u ∉ participants_of s b →
  let s' := (join_room u (JStr b) now s).2 in
  user_rooms s' !! u = Some b ∧
  active_rooms s' !! a = active_rooms s !! a ∧
  active_rooms (cleanup_user u s') !! a = active_rooms s !! a ∧
  (u ∈ participants_of s a → u ∈ participants_of (cleanup_user u s') a).
Proof.
  intros Ha Hab Hout s'.
  assert (user_rooms s' !! u = Some b) as Hb.
  { unfold s'. rewrite (join_room_new _ _ _ _ Hout). simpl. apply lookup_insert_eq. }
  assert (active_rooms s' !! a = active_rooms s !! a) as Hsame.
  { unfold s'. by rewrite join_room_room_other. }
  assert (active_rooms (cleanup_user u s') !! a = active_rooms s !! a) as Hafter.
  { rewrite cleanup_user_room_other; [done|]. rewrite Hb. congruence. }
  repeat split; try done.
  unfold participants_of. by rewrite Hafter.
Qed.

Lemma join_room_overwrites_membership_witness :
  let s := globals (run [Connect "A"; Receive 0 (join_frame "r1") 1]) in
  let s' := (join_room "A" (JStr "r2") 2 s).2 in
  user_rooms s !! "A" = Some "r1" ∧ user_rooms s' !! "A" = Some "r2" ∧
  participants_of (cleanup_user "A" s') "r1" = ["A"].
Proof.
  split; [by vm_compute|].
  destruct (join_room_overwrites_membership
              (globals (run [Connect "A"; Receive 0 (join_frame "r1") 1]))
              "A" "r1" "r2" 2) as (H1 & _ & H3 & _).
  - vm_compute. reflexivity.
  - discriminate.
  - vm_compute. apply not_elem_of_nil.
  - split; [exact H1|]. unfold participants_of. rewrite H3. vm_compute. reflexivity.
Defined.

(** C4 (as stated, refuted): A is mapped to "r1" and joins the distinct
    room "r2", which still lists A from an earlier join; the join does
    nothing and the membership map keeps sending A to "r1". *)
Lemma join_room_keeps_membership_when_listed :
  let s := globals (run [Connect "A"; Receive 0 (join_frame "r2") 1;
                         Receive 0 (join_frame "r1") 2]) in
  user_rooms s !! "A" = Some "r1" ∧ participants_of s "r2" = ["A"] ∧
  user_rooms (join_room "A" (JStr "r2") 3 s).2 !! "A" = Some "r1".
Proof. vm_compute. repeat split; reflexivity. Qed.

(** C6: joining a room that already lists the user appends no second
    entry and hands over no frame, hence no [user-joined] announcement. *)
Theorem join_room_idempotent s u r now :
  u ∈ participants_of s r →
  let s' := (join_room u (JStr r) now s).2 in
  participants_of s' r = participants_of s r ∧
  sent s' = sent s ∧ new_frames s s' = [].
Proof.
  intros Hin s'. unfold s'. rewrite join_room_member by done. simpl.
  repeat split. apply new_frames_app. by rewrite app_nil_r.
Qed.

Lemma join_room_idempotent_witness :
  let s := globals (run two_in_abc) in
  let s' := (join_room "B" (JStr "abc") 3 s).2 in
  participants_of s "abc" = ["A"; "B"] ∧
  participants_of s' "abc" = ["A"; "B"] ∧ new_frames s s' = [].
Proof.
  split; [by vm_compute|].
  destruct (join_room_idempotent (globals (run two_in_abc)) "B" "abc" 3) as (H1 & _ & H3).
  - vm_compute. apply list_elem_of_In. simpl. tauto.
  - split; [|exact H3]. rewrite H1. by vm_compute.
Defined.

(** Joining twice in a row is the same as joining once. *)
Lemma join_room_twice s u r now now' :
  join_room u (JStr r) now' (join_room u (JStr r) now s).2
  = (Returned, (join_room u (JStr r) now s).2).
Proof. apply join_room_member, join_room_listed. Qed.

(** C10: joining a room that already lists the user leaves the rooms,
    the connections and the membership map as they were; a membership
    entry that points at another room still points there. *)
Theorem join_room_listed_frame s u r now :
  u ∈ participants_of s r →
  let s' := (join_room u (JStr r) now s).2 in
  active_rooms s' = active_rooms s ∧
  websocket_connections s' = websocket_connections s ∧
  user_rooms s' = user_rooms s ∧
  (∀ r', user_rooms s !! u = Some r' → r' ≠ r → user_rooms s' !! u = Some r').
Proof.
  intros Hin s'. unfold s'. rewrite join_room_member by done. simpl. by repeat split.
Qed.

Lemma join_room_listed_frame_witness :
  let s := globals (run [Connect "A"; Receive 0 (join_frame "r2") 1;
                         Receive 0 (join_frame "r1") 2]) in
  let s' := (join_room "A" (JStr "r2") 3 s).2 in
  user_rooms s !! "A" = Some "r1" ∧ active_rooms s' = active_rooms s ∧
  user_rooms s' !! "A" = Some "r1".
Proof.
  split; [by vm_compute|].
  destruct (join_room_listed_frame
              (globals (run [Connect "A"; Receive 0 (join_frame "r2") 1;
                             Receive 0 (join_frame "r1") 2]))
              "A" "r2" 3) as (H1 & _ & _ & H4).
  - vm_compute. apply list_elem_of_In. simpl. tauto.
  - split; [exact H1|]. apply H4; [by vm_compute | discriminate].
Defined.

(** C8 (as amended): on a first join of [u] to [r] the participant list
    becomes the old list followed by [u]; the frames handed over are, in
    this order, the [user-joined] fan-out over that list excluding [u]
    (one frame per other participant with a registered handle that accepts
    the send), and then the [room-joined] frame for [u] when [u] has a
    registered handle that accepts the send; both messages carry the new
    list. *)
Theorem join_room_announcements s u r now :
  u ∉ participants_of s r →
  let ps := participants_of s r ++ [u] in
  let s' := (join_room u (JStr r) now s).2 in
  let announced := fanout s (UserJoined u ps) (Some u) ps in
  participants_of s' r = ps ∧
  user_rooms s' !! u = Some r ∧
  sent s' = sent s ++ announced ++ unicast s u (RoomJoined r ps) ∧
  addressed_to u announced = [].
Proof.
  intros Hout ps s' announced. unfold s'.
  rewrite (join_room_new _ _ _ _ Hout). unfold participants_of at 1. simpl.
  rewrite !lookup_insert_eq. simpl. repeat split.
  - unfold announced, ps. by rewrite fanout_excluded_last.
  - apply fanout_addressed_excluded.
Qed.

Lemma join_room_announcements_witness :
  let s := globals (run [Connect "A"; Connect "B"; Receive 0 (join_frame "abc") 1]) in
  ("B" ∉ participants_of s "abc") ∧
  sent (join_room "B" (JStr "abc") 2 s).2 =
    sent s ++ [mkDelivery "A" 0 (UserJoined "B" ["A"; "B"]);
               mkDelivery "B" 1 (RoomJoined "abc" ["A"; "B"])].
Proof.
  assert ("B" ∉ participants_of
            (globals (run [Connect "A"; Connect "B"; Receive 0 (join_frame "abc") 1])) "abc") as Hout.
  { vm_compute. intros [H|[]]%list_elem_of_In. discriminate. }
  split; [exact Hout|].
  destruct (join_room_announcements _ "B" "abc" 2 Hout) as (_ & _ & H3 & _).
  rewrite H3. by vm_compute.
Defined.

(** C8 (as stated, refuted): B's running endpoint (handle 2) makes a first
    join of "abc", but B has no entry in [websocket_connections]; A gets
    [user-joined] and nobody gets [room-joined]. *)
Lemma join_room_no_unicast_when_unregistered :
  let sv := run (stale_session ++ [Receive 0 (join_frame "abc") 1]) in
  let s' := globals (step sv (Receive 2 (join_frame "abc") 2)) in
  handlers sv !! 2 = Some "B" ∧
  participants_of (globals sv) "abc" = ["A"] ∧
  participants_of s' "abc" = ["A"; "B"] ∧
  new_frames (globals sv) s' = [mkDelivery "A" 0 (UserJoined "B" ["A"; "B"])].
Proof. vm_compute. repeat split; reflexivity. Qed.

(** ** Forwarding *)

Lemma handle_signaling_forward u fields t now s r :
  dict_get fields "type" = JStr t → t ∈ signaling_types →
  user_rooms s !! u = Some r → r ≠ "" → is_Some (active_rooms s !! r) →
  handle_signaling_message u (JObj fields) now s =
    (Returned, broadcast_to_room r (Signal t (dict_get fields "data") u) (Some u) s).
Proof.
  intros Ht Hin Hr Hne Hroom. unfold handle_signaling_message. rewrite Ht.
  rewrite decide_False.
  2:{ intros ->. revert Hin. unfold signaling_types. rewrite list_elem_of_In. simpl.
      intros [H|[H|[H|[]]]]; discriminate. }
  rewrite decide_True by done. rewrite Hr.
  apply truthy_ne in Hne. rewrite Hne. by rewrite bool_decide_eq_true_2.
Qed.

Lemma handle_signaling_dropped u fields t now s :
  dict_get fields "type" = JStr t → t ∈ signaling_types →
  (user_rooms s !! u = None ∨
   ∃ r, user_rooms s !! u = Some r ∧ active_rooms s !! r = None) →
  handle_signaling_message u (JObj fields) now s = (Returned, s).
Proof.
  intros Ht Hin Hr. unfold handle_signaling_message. rewrite Ht.
  rewrite decide_False.
  2:{ intros ->. revert Hin. unfold signaling_types. rewrite list_elem_of_In. simpl.
      intros [H|[H|[H|[]]]]; discriminate. }
  rewrite decide_True by done. destruct Hr as [->|(r & -> & Hroom)]; [done|].
  rewrite bool_decide_eq_false_2; [by rewrite andb_false_r|].
  rewrite Hroom. by intros [? ?].
Qed.

(** C7 (the code does not meet it): a frame of type [offer] from a sender
    whose membership maps to an existing room is broadcast to that room.
    A and B are both in the room whose identifier is the empty string;
    A's offer is dropped, since that identifier is false in
    [if room_id and room_id in active_rooms]. *)
Lemma signaling_dropped_in_unnamed_room :
  let s := globals (run two_in_unnamed) in
  reachable s ∧
  user_rooms s !! "A" = Some "" ∧ participants_of s "" = ["A"; "B"] ∧
  websocket_connections s !! "B" = Some 1 ∧
  (handle_signaling_message "A"
     (JObj [("type", JStr "offer"); ("data", JObj [("sdp", JStr "X")])]) 3 s
   = (Returned, s)).
Proof.
  intros s. split; [by exists two_in_unnamed|].
  vm_compute. repeat split; reflexivity.
Qed.

(** ** Rooms without participants *)

(** C5: after any run of the server, a room identifier that is not among
    the rooms made by [create_room] and not joined since is in
    [active_rooms] exactly when its participant list is not empty. *)
Theorem room_present_iff_occupied trace r :
  r ∉ created_unjoined trace →
  is_Some (active_rooms (globals (run trace)) !! r) ↔
  participants_of (globals (run trace)) r ≠ [].
Proof.
  intros Hr. unfold participants_of. split.
  - intros [room Hroom]. rewrite Hroom. intros Hnil.
    apply Hr. by eapply run_empty_rooms.
  - by destruct (active_rooms (globals (run trace)) !! r).
Qed.

Lemma room_present_iff_occupied_witness :
  let trace := [Connect "A"; PostRooms "u1" 0; Receive 0 (join_frame "abc") 1;
                Disconnect 0] in
  ("abc" ∉ created_unjoined trace) ∧
  (is_Some (active_rooms (globals (run trace)) !! "abc") ↔
   participants_of (globals (run trace)) "abc" ≠ []).
Proof.
  assert ("abc" ∉ created_unjoined
            [Connect "A"; PostRooms "u1" 0; Receive 0 (join_frame "abc") 1; Disconnect 0]) as H.
  { vm_compute. intros H. discriminate. }
  split; [exact H|]. exact (room_present_iff_occupied _ "abc" H).
Defined.

(** A room made by [create_room] stays listed with no participants until
    it is joined. *)
Lemma created_room_is_empty :
  let trace := [Connect "A"; PostRooms "u1" 0; Receive 0 (join_frame "abc") 1] in
  "u1" ∈ created_unjoined trace ∧
  get_room "u1" (globals (run trace)) = inr (mkCallRoom "u1" 0 []).
Proof. split; [compute_done | by vm_compute]. Qed.

(** ** Malformed frames *)

Lemma websocket_endpoint_receive_rejected u data now s :
  rejected_frame data = true →
  websocket_endpoint_receive u data now s = (false, cleanup_user u s).
Proof.
  unfold rejected_frame, websocket_endpoint_receive, handle_signaling_message.
  destruct data as [[| | | |?|fields]|]; try done.
  destruct (dict_get fields "type") as [| | |t| |]; try done.
  intros Hrej.
  assert (t = "join-room") as ->.
  { destruct (dict_get fields "room_id"); try done; by apply bool_decide_eq_true in Hrej. }
  rewrite decide_True by done.
  destruct (join_room_not_string u (dict_get fields "room_id") now s) as [e ->]; [|done].
  intros r Hr. by rewrite Hr in Hrej.
Qed.

Lemma websocket_endpoint_receive_untyped u data now s :
  untyped_frame data = true → websocket_endpoint_receive u data now s = (true, s).
Proof.
  unfold untyped_frame, websocket_endpoint_receive, handle_signaling_message.
  destruct data as [[| | | |?|fields]|]; try done.
  by destruct (dict_get fields "type").
Qed.

(** C9 (as amended): a text frame that [json.loads] rejects, that decodes
    to something other than an object, or that is a [join-room] object
    whose [room_id] is missing or not a string, ends the endpoint loop
    through [cleanup_user] before the frame has written anything: the user
    is then in neither [websocket_connections] nor [user_rooms], and the
    dictionaries stay consistent (membership entries point into the lists,
    no list has a duplicate).  An object without a [type] string is not
    torn down: the loop goes on with the state unchanged. *)
Theorem malformed_frame_handling u data now s :
  (rejected_frame data = true →
     websocket_endpoint_receive u data now s = (false, cleanup_user u s) ∧
     websocket_connections (cleanup_user u s) !! u = None ∧
     user_rooms (cleanup_user u s) !! u = None ∧
     (registry_consistent s → registry_consistent (cleanup_user u s))) ∧
  (untyped_frame data = true → websocket_endpoint_receive u data now s = (true, s)).
Proof.
  split.
  - intros Hrej. split; [by apply websocket_endpoint_receive_rejected|].
    split; [apply cleanup_user_unregisters|].
    split; [apply cleanup_user_unregisters | apply cleanup_user_consistent].
  - apply websocket_endpoint_receive_untyped.
Qed.

Lemma malformed_frame_handling_witness :
  let s := globals (run two_in_abc) in
  let no_room := Some (JObj [("type", JStr "join-room")]) in
  rejected_frame no_room = true ∧
  websocket_endpoint_receive "A" no_room 3 s = (false, cleanup_user "A" s) ∧
  websocket_connections (cleanup_user "A" s) !! "A" = None ∧
  participants_of (cleanup_user "A" s) "abc" = ["B"].
Proof.
  split; [reflexivity|].
  destruct (malformed_frame_handling "A" (Some (JObj [("type", JStr "join-room")])) 3
              (globals (run two_in_abc))) as [H _].
  destruct (H eq_refl) as (H1 & H2 & _ & _).
  split; [exact H1|]. split; [exact H2|]. by vm_compute.
Defined.

(** C9 (as stated, refuted): a frame without the [type] field does not
    tear the connection down; the loop goes on and A stays registered. *)
Lemma untyped_frame_not_torn_down :
  let s := globals (run two_in_abc) in
  let frame := Some (JObj [("room_id", JStr "abc")]) in
  websocket_endpoint_receive "A" frame 3 s = (true, s) ∧
  websocket_connections s !! "A" = Some 0 ∧
  handlers (step (run two_in_abc) (Receive 0 frame 3)) !! 0 = Some "A".
Proof. vm_compute. repeat split; reflexivity. Qed.


(** * Further properties of the code *)

(** ** [cleanup_user], case by case *)

Lemma list_remove_first_absent u (l : list string) :
  u ∉ l → list_remove_first u l = l.
Proof.
  induction l as [|y l IH]; simpl; [done|].
  intros [? ?]%not_elem_of_cons. rewrite decide_False by done. by rewrite IH.
Qed.


Lemma list_remove_first_sublist u (l : list string) :
  list_remove_first u l `sublist_of` l.
Proof.
  induction l as [|y l IH]; simpl; [done|].
  destruct (decide (y = u)); [by apply sublist_cons | by apply sublist_skip].
Qed.

(** The user is listed in the room that [user_rooms] names and that room
    has a non-empty identifier: the state after [cleanup_user]. *)
Lemma cleanup_user_listed u r room s :
  user_rooms s !! u = Some r → r ≠ "" →
  active_rooms s !! r = Some room → u ∈ participants room →
  cleanup_user u s =
    let rest := list_remove_first u (participants room) in
    mkState
      (match rest with
       | [] => delete r (active_rooms s)
       | _ :: _ => <[r := mkCallRoom (room_id room) (created_at room) rest]> (active_rooms s)
       end)
      (delete u (websocket_connections s))
      (delete u (user_rooms s))
      (sent s ++ fanout (with_connections (delete u) s) (UserLeft u rest) None rest)
      (closed s).
Proof.
  intros Hr Hne%truthy_ne Hroom Hin. unfold cleanup_user. st_simpl.
  rewrite Hr, Hne, Hroom. rewrite decide_True by done.
  rewrite broadcast_to_room_sent. unfold participants_of. st_simpl.
  rewrite lookup_insert_eq. st_simpl.
  destruct (list_remove_first u (participants room)) as [|p ps];
    unfold with_user_rooms, with_rooms, with_sent, with_connections; st_simpl.
  - f_equal. apply delete_insert_eq.
  - done.
Qed.

(** Every other case: only the two entries of the user are dropped. *)
Lemma cleanup_user_unlisted u s :
  (∀ r room, user_rooms s !! u = Some r → r ≠ "" →
             active_rooms s !! r = Some room → u ∉ participants room) →
  cleanup_user u s =
    mkState (active_rooms s) (delete u (websocket_connections s))
            (delete u (user_rooms s)) (sent s) (closed s).
Proof.
  intros Hout. unfold cleanup_user. st_simpl.
  destruct (user_rooms s !! u) as [r|] eqn:Hr; [|done].
  destruct (truthy r) eqn:Ht; [|done]. apply truthy_ne in Ht.
  destruct (active_rooms s !! r) as [room|] eqn:Hroom; [|done].
  rewrite decide_False; [done|]. by eapply Hout.
Qed.

(** X4: a user with no entry in [websocket_connections] and none in
    [user_rooms] is unknown to [cleanup_user]: the call changes nothing. *)
Theorem cleanup_user_unknown u s :
  websocket_connections s !! u = None → user_rooms s !! u = None →
  cleanup_user u s = s.
Proof.
  intros Hc Hm. rewrite cleanup_user_unlisted.
  - rewrite !delete_id by done. by destruct s.
  - intros r room Hr. by rewrite Hm in Hr.
Qed.

Lemma cleanup_user_unknown_witness :
  let s := globals (run two_in_abc) in
  websocket_connections s !! "C" = None ∧ cleanup_user "C" s = s.
Proof.
  split; [by vm_compute|].
  apply cleanup_user_unknown; by vm_compute.
Defined.

(** X5: [cleanup_user] is idempotent: running it a second time for the
    same user changes nothing more. *)
Theorem cleanup_user_idempotent u s :
  cleanup_user u (cleanup_user u s) = cleanup_user u s.
Proof.
  pose proof (cleanup_user_unregisters u s) as [Hc Hm].
  rewrite (cleanup_user_unlisted u (cleanup_user u s)).
  - rewrite !delete_id by done. by destruct (cleanup_user u s).
  - intros r room Hr. by rewrite Hm in Hr.
Qed.

(** X6: [cleanup_user] takes nothing from another user: its connection
    and its membership entry stay, and it stays listed in every room that
    listed it (such a room is never deleted). *)
Theorem cleanup_user_keeps_others u v s :
  v ≠ u →
  websocket_connections (cleanup_user u s) !! v = websocket_connections s !! v ∧
  user_rooms (cleanup_user u s) !! v = user_rooms s !! v ∧
  (∀ r, v ∈ participants_of s r → v ∈ participants_of (cleanup_user u s) r).
Proof.
  intros Hne. rewrite cleanup_user_connections, cleanup_user_user_rooms.
  rewrite !lookup_delete_ne by done. repeat split.
  intros r Hv. unfold participants_of in *.
  destruct (cleanup_user_rooms u s) as [->|(r' & room & ? & ? & Hroom & ? & ->)]; [done|].
  destruct (decide (r' = r)) as [->|Hr].
  - rewrite Hroom in Hv.
    pose proof (list_remove_first_other u _ v Hne Hv) as Hin.
    destruct (list_remove_first u (participants room)) as [|p ps]; [by apply elem_of_nil in Hin|].
    by rewrite lookup_insert_eq.
  - destruct (list_remove_first u (participants room)).
    + by rewrite lookup_delete_ne.
    + by rewrite lookup_insert_ne.
Qed.

Lemma cleanup_user_keeps_others_witness :
  let s := globals (run two_in_abc) in
  websocket_connections (cleanup_user "A" s) !! "B" = Some 1 ∧
  user_rooms (cleanup_user "A" s) !! "B" = Some "abc".
Proof.
  destruct (cleanup_user_keeps_others "A" "B" (globals (run two_in_abc))) as (H1 & H2 & _).
  - discriminate.
  - cbv zeta. rewrite H1, H2. by vm_compute.
Defined.

Lemma fanout_unregistered s m ex ps u :
  websocket_connections s !! u = None → addressed_to u (fanout s m ex ps) = [].
Proof.
  intros Hu. rewrite fanout_addressed.
  induction ps as [|q ps IH]; [done|].
  rewrite filter_cons. destruct (decide (q = u)) as [->|]; [|done].
  unfold fanout in *. simpl. unfold fanout_one at 1.
  destruct (decide (Some u = ex)); [done|]. by rewrite Hu.
Qed.

(** X7: whatever the state, [cleanup_user] hands no frame to the user it
    cleans up: its connection entry is dropped before the [user-left]
    broadcast, which has no excluded user. *)
Theorem cleanup_user_silent_for_leaver u s :
  addressed_to u (new_frames s (cleanup_user u s)) = [].
Proof.
  destruct (user_rooms s !! u) as [r|] eqn:Hr.
  2:{ rewrite cleanup_user_unlisted by (intros ? ? ?; congruence).
      unfold new_frames. simpl. by rewrite drop_all. }
  destruct (decide (r = "")) as [->|Hne].
  { rewrite cleanup_user_unlisted by (intros ? ? ?; congruence).
    unfold new_frames. simpl. by rewrite drop_all. }
  destruct (active_rooms s !! r) as [room|] eqn:Hroom.
  2:{ rewrite cleanup_user_unlisted by (intros ? ? ?; congruence).
      unfold new_frames. simpl. by rewrite drop_all. }
  destruct (decide (u ∈ participants room)) as [Hin|Hout].
  - rewrite (cleanup_user_listed u r room) by done. cbv zeta.
    erewrite new_frames_app by reflexivity.
    apply fanout_unregistered. simpl. apply lookup_delete_eq.
  - rewrite cleanup_user_unlisted.
    + unfold new_frames. simpl. by rewrite drop_all.
    + intros r' room' Hr'. assert (r' = r) as -> by congruence. intros _ ?. congruence.
Qed.

(** X8: when the user is listed in its current room (non-empty
    identifier), [cleanup_user] removes one occurrence and keeps the order
    of the others; the room is deleted exactly when nobody is left, and
    otherwise every remaining participant with a registered handle that
    accepts the send gets [user-left] with the remaining list. *)
Theorem cleanup_user_departure u r room s :
  user_rooms s !! u = Some r → r ≠ "" →
  active_rooms s !! r = Some room → u ∈ participants room →
  let rest := list_remove_first u (participants room) in
  let s' := cleanup_user u s in
  rest `sublist_of` participants room ∧
  length (participants room) = S (length rest) ∧
  (rest = [] → active_rooms s' !! r = None) ∧
  (rest ≠ [] → participants_of s' r = rest ∧ created_at <$> active_rooms s' !! r = Some (created_at room)) ∧
  new_frames s s' = fanout (with_connections (delete u) s) (UserLeft u rest) None rest.
Proof.
  intros Hr Hne Hroom Hin rest s'. unfold s'.
  rewrite (cleanup_user_listed u r room) by done. fold rest.
  split; [apply list_remove_first_sublist|]. split.
  { clear -Hin. unfold rest. induction (participants room) as [|y l IH]; [by apply elem_of_nil in Hin|].
    simpl. destruct (decide (y = u)); [done|].
    simpl. f_equal. apply IH. apply elem_of_cons in Hin as [->|]; done. }
  unfold participants_of. simpl. repeat split.
  - intros ->. apply lookup_delete_eq.
  - destruct rest; [done|]. by rewrite lookup_insert_eq.
  - destruct rest; [done|]. by rewrite lookup_insert_eq.
  - by apply new_frames_app.
Qed.

Lemma cleanup_user_departure_witness :
  let s := globals (run two_in_abc) in
  participants_of (cleanup_user "A" s) "abc" = ["B"] ∧
  new_frames s (cleanup_user "A" s) = [mkDelivery "B" 1 (UserLeft "A" ["B"])].
Proof.
  destruct (cleanup_user_departure "A" "abc" (mkCallRoom "abc" 1 ["A"; "B"])
              (globals (run two_in_abc))) as (_ & _ & _ & H4 & H5).
  - by vm_compute.
  - discriminate.
  - by vm_compute.
  - apply list_elem_of_In. simpl. tauto.
  - cbv zeta in *. split.
    + destruct H4 as [H4 _]; [by vm_compute|]. rewrite H4. by vm_compute.
    + rewrite H5. by vm_compute.
Defined.

(** ** [broadcast_to_room] *)

(** X1: [broadcast_to_room] writes none of the three dictionaries and only
    appends to the transcript; for an identifier with no room it does
    nothing at all. *)
Theorem broadcast_to_room_writes_nothing r m ex s :
  let s' := broadcast_to_room r m ex s in
  active_rooms s' = active_rooms s ∧
  websocket_connections s' = websocket_connections s ∧
  user_rooms s' = user_rooms s ∧
  sent s `prefix_of` sent s' ∧
  (active_rooms s !! r = None → s' = s).
Proof.
  cbv zeta. rewrite broadcast_to_room_sent. repeat split.
  - simpl. by eexists.
  - intros Hr. unfold participants_of. rewrite Hr. apply with_sent_nil.
Qed.

Lemma fanout_one_other_closed s m ex p ws bad :
  websocket_connections s !! p = Some ws → ws ≠ bad →
  fanout_one (with_closed (λ c, c ∪ {[bad]}) s) m ex p = fanout_one s m ex p.
Proof.
  intros Hws Hne. unfold fanout_one. st_simpl. rewrite Hws.
  destruct (decide (Some p = ex)); [done|].
  destruct (decide (ws ∈ closed s)) as [Hin|Hout].
  - rewrite decide_True; [done|]. apply elem_of_union. by left.
  - rewrite decide_False; [done|]. rewrite elem_of_union, elem_of_singleton. tauto.
Qed.

Lemma fanout_ext s1 s2 m ex (l : list string) :
  (∀ q, q ∈ l → fanout_one s1 m ex q = fanout_one s2 m ex q) →
  fanout s1 m ex l = fanout s2 m ex l.
Proof.
  unfold fanout. induction l as [|q l IH]; intros Hq; [done|].
  change (omap ?f (q :: l)) with (match f q with Some y => y :: omap f l | None => omap f l end).
  rewrite (Hq q) by apply list_elem_of_here.
  rewrite IH; [done|]. intros q' Hq'. apply Hq. by apply list_elem_of_further.
Qed.

(** X2: a failing transport does not cost anybody else the message: if
    the handle [bad] starts to raise on [send_text], a participant that is
    registered under another handle is handed the same frames by
    [broadcast_to_room] as before. *)
Theorem broadcast_to_room_failure_isolated r m ex s p ws bad :
  websocket_connections s !! p = Some ws → ws ≠ bad →
  let s_bad := with_closed (λ c, c ∪ {[bad]}) s in
  addressed_to p (new_frames s_bad (broadcast_to_room r m ex s_bad)) =
  addressed_to p (new_frames s (broadcast_to_room r m ex s)).
Proof.
  intros Hws Hne s_bad.
  rewrite (new_frames_app s_bad _ (fanout s_bad m ex (participants_of s_bad r)))
    by (by rewrite broadcast_to_room_sent).
  rewrite (new_frames_app s _ (fanout s m ex (participants_of s r)))
    by (by rewrite broadcast_to_room_sent).
  rewrite !fanout_addressed.
  change (participants_of s_bad r) with (participants_of s r).
  apply fanout_ext. intros q [-> _]%list_elem_of_filter.
  by apply (fanout_one_other_closed s m ex p ws bad).
Qed.

Lemma broadcast_to_room_failure_isolated_witness :
  let s := globals (run (two_in_abc ++ [Connect "C"; Receive 2 (join_frame "abc") 3])) in
  let s_bad := with_closed (λ c, c ∪ {[2]}) s in
  let m := Signal "offer" JNull "A" in
  addressed_to "B" (new_frames s_bad (broadcast_to_room "abc" m (Some "A") s_bad)) =
  [mkDelivery "B" 1 m].
Proof.
  cbv zeta.
  rewrite (broadcast_to_room_failure_isolated "abc" _ (Some "A") _ "B" 1 2).
  - by vm_compute.
  - by vm_compute.
  - discriminate.
Defined.

Lemma fanout_recipients_sublist s m ex ps :
  (to_user <$> fanout s m ex ps) `sublist_of` ps.
Proof.
  unfold fanout. induction ps as [|q ps IH]; simpl; [done|].
  destruct (fanout_one s m ex q) as [d|] eqn:Hd.
  - assert (to_user d = q) as <-.
    { unfold fanout_one in Hd. repeat case_match; by simplify_eq. }
    simpl. by apply sublist_skip.
  - by apply sublist_cons.
Qed.

(** X3: the frames of one [broadcast_to_room] go out in the order of the
    participant list, each through the handle registered for its recipient
    at that moment, and never through a handle whose send raises. *)
Theorem broadcast_to_room_order r m ex s :
  let new := new_frames s (broadcast_to_room r m ex s) in
  (to_user <$> new) `sublist_of` participants_of s r ∧
  (∀ d, d ∈ new →
     websocket_connections s !! to_user d = Some (via d) ∧ via d ∉ closed s).
Proof.
  cbv zeta.
  rewrite (new_frames_app s _ (fanout s m ex (participants_of s r)))
    by (by rewrite broadcast_to_room_sent).
  split; [apply fanout_recipients_sublist|].
  intros d Hd%fanout_elem. tauto.
Qed.

(** ** [join_room] and the endpoint loop *)

Lemma join_room_new_outcome u r now s :
  u ∉ participants_of s r →
  (join_room u (JStr r) now s).1 =
    match websocket_connections s !! u with
    | Some ws => if decide (ws ∈ closed s) then Raised SendError else Returned
    | None => Returned
    end.
Proof.
  unfold participants_of, join_room, send_text.
  destruct (active_rooms s !! r) as [room|] eqn:Hroom; intros Hout.
  - rewrite Hroom. rewrite decide_False by done. cbv zeta.
    rewrite broadcast_to_room_sent. st_simpl.
    destruct (websocket_connections s !! u) as [ws|]; [|done].
    by destruct (decide (ws ∈ closed s)).
  - st_simpl. rewrite lookup_insert_eq. st_simpl.
    rewrite decide_False by apply not_elem_of_nil. cbv zeta.
    rewrite broadcast_to_room_sent. st_simpl.
    destruct (websocket_connections s !! u) as [ws|]; [|done].
    by destruct (decide (ws ∈ closed s)).
Qed.

(** X9: [join_room] raises in two situations only: the [room_id] is not a
    string, or the call is a first join and the joiner's own registered
    handle refuses the [room-joined] frame. *)
Theorem join_room_raises_iff u rid now s :
  (join_room u rid now s).1 ≠ Returned ↔
  (∀ r, rid ≠ JStr r) ∨
  (∃ r ws, rid = JStr r ∧ (u ∉ participants_of s r) ∧
           websocket_connections s !! u = Some ws ∧ ws ∈ closed s).
Proof.
  split.
  - intros Hraise. destruct rid as [| | |r| |]; try (by left).
    right. destruct (decide (u ∈ participants_of s r)) as [Hin|Hout].
    { by rewrite join_room_member in Hraise. }
    rewrite join_room_new_outcome in Hraise by done.
    destruct (websocket_connections s !! u) as [ws|] eqn:Hws; [|done].
    destruct (decide (ws ∈ closed s)); [|done]. by exists r, ws.
  - intros [Hrid|(r & ws & -> & Hout & Hws & Hcl)].
    + destruct (join_room_not_string u rid now s Hrid) as [e ->]. done.
    + rewrite join_room_new_outcome by done. rewrite Hws.
      by rewrite decide_True.
Qed.





(** X12: a frame that is not a [join-room] frame never comes back to its
    sender and writes none of the three dictionaries. *)
Theorem handle_signaling_message_no_echo u fields now s :
  dict_get fields "type" ≠ JStr "join-room" →
  let s' := (handle_signaling_message u (JObj fields) now s).2 in
  addressed_to u (new_frames s s') = [] ∧
  active_rooms s' = active_rooms s ∧
  websocket_connections s' = websocket_connections s ∧
  user_rooms s' = user_rooms s.
Proof.
  intros Ht. cbv zeta. unfold handle_signaling_message.
  assert (addressed_to u (new_frames s s) = []) as Hsame.
  { unfold new_frames. by rewrite drop_all. }
  destruct (dict_get fields "type") as [| | |t| |]; try done.
  rewrite decide_False by congruence.
  destruct (decide (t ∈ signaling_types)); [|done].
  destruct (user_rooms s !! u) as [r|]; [|done].
  destruct (truthy r && bool_decide (is_Some (active_rooms s !! r))); [|done].
  st_simpl. rewrite broadcast_to_room_sent. repeat split.
  erewrite new_frames_app by reflexivity. apply fanout_addressed_excluded.
Qed.

Lemma handle_signaling_message_no_echo_witness :
  let s := globals (run two_in_abc) in
  let s' := (handle_signaling_message "A"
               (JObj [("type", JStr "answer"); ("data", JNull)]) 3 s).2 in
  addressed_to "A" (new_frames s s') = [] ∧ user_rooms s' = user_rooms s.
Proof.
  destruct (handle_signaling_message_no_echo "A" [("type", JStr "answer"); ("data", JNull)] 3
              (globals (run two_in_abc))) as (H1 & _ & _ & H4).
  - simpl. discriminate.
  - by split.
Defined.

(** ** The loop of [delete_room] *)

Lemma cleanup_loop_connections (ps : list string) : ∀ s u,
  websocket_connections (foldl (λ st p, cleanup_user p st) s ps) !! u =
    if decide (u ∈ ps) then None else websocket_connections s !! u.
Proof.
  induction ps as [|p ps IH]; intros s u; cbn [foldl].
  - by rewrite decide_False by apply not_elem_of_nil.
  - rewrite IH, cleanup_user_connections.
    destruct (decide (u ∈ ps)) as [Hin|Hout].
    + rewrite decide_True; [done|]. by apply list_elem_of_further.
    + destruct (decide (p = u)) as [->|Hne].
      * rewrite lookup_delete_eq. rewrite decide_True; [done|]. apply list_elem_of_here.
      * rewrite lookup_delete_ne by done. rewrite decide_False; [done|].
        rewrite elem_of_cons. intros [?|?]; congruence.
Qed.

Lemma cleanup_loop_user_rooms (ps : list string) : ∀ s u,
  user_rooms (foldl (λ st p, cleanup_user p st) s ps) !! u =
    if decide (u ∈ ps) then None else user_rooms s !! u.
Proof.
  induction ps as [|p ps IH]; intros s u; cbn [foldl].
  - by rewrite decide_False by apply not_elem_of_nil.
  - rewrite IH, cleanup_user_user_rooms.
    destruct (decide (u ∈ ps)) as [Hin|Hout].
    + rewrite decide_True; [done|]. by apply list_elem_of_further.
    + destruct (decide (p = u)) as [->|Hne].
      * rewrite lookup_delete_eq. rewrite decide_True; [done|]. apply list_elem_of_here.
      * rewrite lookup_delete_ne by done. rewrite decide_False; [done|].
        rewrite elem_of_cons. intros [?|?]; congruence.
Qed.

Lemma cleanup_loop_membership (ps : list string) : ∀ s,
  membership_consistent s →
  membership_consistent (foldl (λ st p, cleanup_user p st) s ps).
Proof.
  induction ps as [|p ps IH]; intros s Hinv; simpl; [done|].
  by apply IH, cleanup_user_membership.
Qed.

Lemma cleanup_loop_empties r (ps : list string) : ∀ s room,
  ps ≠ [] → NoDup ps → r ≠ "" →
  active_rooms s !! r = Some room → participants room = ps →
  (∀ p, p ∈ ps → user_rooms s !! p = Some r) →
  active_rooms (foldl (λ st p, cleanup_user p st) s ps) !! r = None.
Proof.
  induction ps as [|p ps IH]; intros s room Hnil Hnd Hne Hroom Hps Hmap; [done|].
  simpl. apply NoDup_cons in Hnd as [Hp Hnd].
  assert (cleanup_user p s =
    mkState
      (match ps with
       | [] => delete r (active_rooms s)
       | _ :: _ => <[r := mkCallRoom (room_id room) (created_at room) ps]> (active_rooms s)
       end)
      (delete p (websocket_connections s)) (delete p (user_rooms s))
      (sent s ++ fanout (with_connections (delete p) s) (UserLeft p ps) None ps)
      (closed s)) as ->.
  { rewrite (cleanup_user_listed p r room); try done.
    - cbv zeta. rewrite Hps. simpl. by rewrite decide_True.
    - apply Hmap, list_elem_of_here.
    - rewrite Hps. apply list_elem_of_here. }
  destruct ps as [|q ps'].
  - simpl. apply lookup_delete_eq.
  - eapply IH; try done.
    + simpl. apply lookup_insert_eq.
    + done.
    + intros x Hx. simpl. rewrite lookup_delete_ne.
      * apply Hmap. by apply list_elem_of_further.
      * intros ->. done.
Qed.

(** X13: whatever [delete_room] answers, afterwards the room is gone and
    every participant it listed has lost its entry in
    [websocket_connections] and in [user_rooms]; for an identifier with no
    room the answer is 404 and nothing changes. *)
Theorem delete_room_effect r s :
  let s' := (delete_room r s).2 in
  (active_rooms s !! r = None → delete_room r s = (Raised (HTTPException 404), s)) ∧
  active_rooms s' !! r = None ∧
  (∀ p, p ∈ participants_of s r →
        websocket_connections s' !! p = None ∧ user_rooms s' !! p = None).
Proof.
  cbv zeta. split; [|split].
  - intros Hr. unfold delete_room. by rewrite Hr.
  - apply delete_room_gone.
  - intros p Hp. unfold delete_room.
    destruct (active_rooms s !! r) as [room|] eqn:Hr.
    2:{ unfold participants_of in Hp. rewrite Hr in Hp. by apply elem_of_nil in Hp. }
    assert (participants_of (broadcast_to_room r RoomClosed None s) r = participants_of s r) as Hps.
    { unfold participants_of. by rewrite broadcast_to_room_rooms. }
    rewrite Hps.
    set (s2 := foldl _ _ _).
    assert (websocket_connections s2 !! p = None ∧ user_rooms s2 !! p = None) as [H1 H2].
    { unfold s2. rewrite cleanup_loop_connections, cleanup_loop_user_rooms.
      by rewrite !decide_True. }
    by destruct (active_rooms s2 !! r).
Qed.

Lemma delete_room_effect_witness :
  let s := globals (run (two_in_abc ++ [PostRooms "u1" 5])) in
  delete_room "nope" s = (Raised (HTTPException 404), s).
Proof.
  cbv zeta. apply delete_room_effect. by vm_compute.
Defined.

(** X14: [delete_room] raises [KeyError] instead of answering whenever
    the room has participants and each of them is mapped to it by
    [user_rooms] (identifier not empty, no duplicate in the list): the last
    [cleanup_user] has already deleted the room. *)
Theorem delete_room_raises_when_all_mapped r room s :
  active_rooms s !! r = Some room → r ≠ "" →
  participants room ≠ [] → NoDup (participants room) →
  (∀ p, p ∈ participants room → user_rooms s !! p = Some r) →
  (delete_room r s).1 = Raised KeyError.
Proof.
  intros Hr Hne Hnil Hnd Hmap. unfold delete_room. rewrite Hr.
  assert (participants_of (broadcast_to_room r RoomClosed None s) r = participants room) as ->.
  { unfold participants_of. by rewrite broadcast_to_room_rooms, Hr. }
  rewrite (cleanup_loop_empties r (participants room) _ room); try done.
  - by rewrite broadcast_to_room_rooms.
  - intros p Hp. rewrite broadcast_to_room_user_rooms. by apply Hmap.
Qed.

Lemma delete_room_raises_when_all_mapped_witness :
  (delete_room "abc" (globals (run two_in_abc))).1 = Raised KeyError.
Proof.
  apply (delete_room_raises_when_all_mapped "abc" (mkCallRoom "abc" 1 ["A"; "B"])).
  - by vm_compute.
  - discriminate.
  - discriminate.
  - simpl. apply NoDup_cons. split.
    + intros [H|[]]%list_elem_of_In. discriminate.
    + apply NoDup_singleton.
  - intros p [<-|[<-|[]]]%list_elem_of_In; by vm_compute.
Defined.

(** X15: on a room without participants (made by [create_room] and never
    joined) [delete_room] answers and removes that room and nothing else. *)
Theorem delete_room_empty_room r room s :
  active_rooms s !! r = Some room → participants room = [] →
  delete_room r s = (Returned, with_rooms (delete r) s).
Proof.
  intros Hr Hnil. unfold delete_room, broadcast_to_room, participants_of.
  rewrite Hr, Hnil. simpl. rewrite Hr, Hnil. simpl. by rewrite Hr.
Qed.

Lemma delete_room_empty_room_witness :
  let s := globals (run (two_in_abc ++ [PostRooms "u1" 5])) in
  delete_room "u1" s = (Returned, with_rooms (delete "u1") s).
Proof.
  cbv zeta. apply (delete_room_empty_room "u1" (mkCallRoom "u1" 5 [])); by vm_compute.
Defined.

(** ** Invariants of the running server *)

Lemma run_invariant (P : Server → Prop) :
  P boot → (∀ sv e, P sv → P (step sv e)) → ∀ trace, P (run trace).
Proof.
  intros Hboot Hstep trace. unfold run.
  induction trace as [|e trace IH] using rev_ind; [done|].
  rewrite foldl_snoc. by apply Hstep.
Qed.

(** X16: in every state the server can reach, no participant list names
    a user twice. *)
Theorem participants_never_duplicated trace r room :
  active_rooms (globals (run trace)) !! r = Some room →
  NoDup (participants room).
Proof. apply run_distinct. Qed.

Lemma participants_never_duplicated_witness :
  NoDup ["A"; "B"].
Proof.
  apply (participants_never_duplicated two_in_abc "abc" (mkCallRoom "abc" 1 ["A"; "B"])).
  by vm_compute.
Defined.

Lemma join_room_connections u rid now s :
  websocket_connections (join_room u rid now s).2 = websocket_connections s.
Proof.
  destruct rid as [| | |r| |]; try done.
  destruct (decide (u ∈ participants_of s r)) as [Hin|Hout].
  - by rewrite join_room_member.
  - by rewrite (join_room_new _ _ _ _ Hout).
Qed.

Lemma handle_signaling_message_connections u md now s :
  websocket_connections (handle_signaling_message u md now s).2 = websocket_connections s.
Proof.
  destruct (handle_signaling_message_cases u md now s) as [(r & _ & ->)|(_ & _ & H & _)].
  - apply join_room_connections.
  - done.
Qed.

(** One turn of the loop either goes on with the connections untouched,
    or ends with only the user's own entry removed. *)
Lemma websocket_endpoint_receive_connections u data now s :
  let res := websocket_endpoint_receive u data now s in
  websocket_connections res.2 =
    if res.1 then websocket_connections s else delete u (websocket_connections s).
Proof.
  cbv zeta. unfold websocket_endpoint_receive.
  destruct data as [md|]; [|cbn [fst snd]; by rewrite cleanup_user_connections].
  pose proof (handle_signaling_message_connections u md now s) as H.
  destruct (handle_signaling_message u md now s) as [[|e] s']; cbn [fst snd] in *; [done|].
  by rewrite cleanup_user_connections, H.
Qed.

Lemma delete_room_connections r s u ws :
  websocket_connections (delete_room r s).2 !! u = Some ws →
  websocket_connections s !! u = Some ws.
Proof.
  unfold delete_room. destruct (active_rooms s !! r); [|done].
  set (ps := participants_of _ r). set (s2 := foldl _ _ ps).
  assert (websocket_connections s2 !! u = Some ws → websocket_connections s !! u = Some ws) as H2.
  { unfold s2. rewrite cleanup_loop_connections. case_decide; [done|].
    by rewrite broadcast_to_room_connections. }
  by destruct (active_rooms s2 !! r).
Qed.

Lemma step_connections_served sv e :
  connections_served sv → connections_served (step sv e).
Proof.
  intros Hinv. unfold connections_served.
  destruct e as [u|ws data now|ws|ws|uuid now|r]; cbn [step].
  - intros u' ws'. unfold websocket_endpoint_accept. cbn [globals handlers next_ws]. st_simpl.
    destruct (decide (u = u')) as [<-|Hne].
    + rewrite lookup_insert_eq. intros [= <-]. rewrite lookup_insert_eq. split; [done|lia].
    + rewrite lookup_insert_ne by done. intros [Hh Hlt]%Hinv.
      rewrite lookup_insert_ne by lia. split; [done|lia].
  - destruct (handlers sv !! ws) as [u|] eqn:Hws; [|done].
    pose proof (websocket_endpoint_receive_connections u data now (globals sv)) as Hc.
    cbv zeta in Hc.
    destruct (websocket_endpoint_receive u data now (globals sv)) as [[|] s'];
      cbn [fst snd] in Hc; cbn [globals handlers next_ws]; intros u' ws'; rewrite Hc.
    + apply Hinv.
    + intros [Hne Hl]%lookup_delete_Some.
      destruct (Hinv _ _ Hl) as [Hh Hlt]. split; [|done].
      rewrite lookup_delete_ne; [done|]. intros ->. congruence.
  - destruct (handlers sv !! ws) as [u|] eqn:Hws; [|done].
    intros u' ws'. cbn [globals handlers next_ws]. unfold websocket_endpoint_disconnect.
    rewrite cleanup_user_connections. intros [Hne Hl]%lookup_delete_Some.
    destruct (Hinv _ _ Hl) as [Hh Hlt]. split; [|done].
    rewrite lookup_delete_ne; [done|]. intros ->. congruence.
  - apply Hinv.
  - apply Hinv.
  - intros u' ws'. cbn [globals handlers next_ws].
    intros Hl%delete_room_connections. by apply Hinv.
Qed.

(** X17: in every state the server can reach, a handle registered in
    [websocket_connections] for a user belongs to an endpoint that is
    still running for that very user: the registry never keeps the
    transport of an endpoint that has ended. *)
Theorem registered_handle_is_served trace u ws :
  websocket_connections (globals (run trace)) !! u = Some ws →
  handlers (run trace) !! ws = Some u.
Proof.
  intros Hl. eapply (run_invariant connections_served); [| |exact Hl].
  - intros u' ws'. simpl. by rewrite lookup_empty.
  - apply step_connections_served.
Qed.

Lemma registered_handle_is_served_witness :
  handlers (run (stale_session ++ [Connect "B"])) !! 3 = Some "B".
Proof.
  apply registered_handle_is_served. by vm_compute.
Defined.

Lemma cleanup_user_keyed u s : rooms_keyed s → rooms_keyed (cleanup_user u s).
Proof.
  intros Hinv r' room'.
  destruct (cleanup_user_rooms u s) as [->|(r & room & _ & _ & Hroom & _ & ->)]; [apply Hinv|].
  destruct (list_remove_first u (participants room)) as [|p ps].
  - intros [_ Hl]%lookup_delete_Some. by apply Hinv.
  - destruct (decide (r = r')) as [<-|Hne].
    + rewrite lookup_insert_eq. intros [= <-]. simpl. by apply Hinv.
    + rewrite lookup_insert_ne by done. apply Hinv.
Qed.

Lemma join_room_keyed u rid now s : rooms_keyed s → rooms_keyed (join_room u rid now s).2.
Proof.
  intros Hinv. destruct rid as [| | |r| |]; try done.
  destruct (decide (u ∈ participants_of s r)) as [Hin|Hout].
  - by rewrite join_room_member.
  - rewrite (join_room_new _ _ _ _ Hout). intros r' room'. simpl.
    destruct (decide (r = r')) as [<-|Hne].
    + rewrite lookup_insert_eq. intros [= <-]. simpl.
      destruct (active_rooms s !! r) as [room|] eqn:Hroom; simpl; [by apply Hinv|done].
    + rewrite lookup_insert_ne by done. apply Hinv.
Qed.

Lemma step_keyed sv e : rooms_keyed (globals sv) → rooms_keyed (globals (step sv e)).
Proof.
  intros Hinv. destruct e as [u|ws data now|ws|ws|uuid now|r]; simpl.
  - done.
  - destruct (handlers sv !! ws) as [u|]; [|done].
    assert (rooms_keyed (websocket_endpoint_receive u data now (globals sv)).2) as H.
    { unfold websocket_endpoint_receive. destruct data as [md|]; [|by apply cleanup_user_keyed].
      assert (rooms_keyed (handle_signaling_message u md now (globals sv)).2) as Hh.
      { destruct (handle_signaling_message_cases u md now (globals sv))
          as [(r & _ & ->)|(_ & Hr & _)].
        - by apply join_room_keyed.
        - intros r room. rewrite Hr. apply Hinv. }
      destruct (handle_signaling_message u md now (globals sv)) as [[|e] s']; [done|].
      by apply cleanup_user_keyed. }
    by destruct (websocket_endpoint_receive u data now (globals sv)) as [[|] s'].
  - destruct (handlers sv !! ws) as [u|]; [|done]. by apply cleanup_user_keyed.
  - done.
  - intros r room. unfold create_room. st_simpl.
    destruct (decide (uuid = r)) as [<-|Hne].
    + rewrite lookup_insert_eq. by intros [= <-].
    + rewrite lookup_insert_ne by done. apply Hinv.
  - unfold delete_room. destruct (active_rooms (globals sv) !! r); [|done].
    set (ps := participants_of _ r). set (s2 := foldl _ _ ps).
    assert (rooms_keyed s2) as H2.
    { unfold s2. generalize ps. intros l.
      assert (rooms_keyed (broadcast_to_room r RoomClosed None (globals sv))) as H1.
      { intros r' room'. rewrite broadcast_to_room_rooms. apply Hinv. }
      revert H1. generalize (broadcast_to_room r RoomClosed None (globals sv)).
      induction l as [|p l IH]; intros s1 H1; simpl; [done|].
      by apply IH, cleanup_user_keyed. }
    destruct (active_rooms s2 !! r); [|done].
    intros r' room'. st_simpl. intros [_ Hl]%lookup_delete_Some. by apply H2.
Qed.

(** X18: in every state the server can reach, [get_room] answers with
    the identifier it was asked for: each room is stored under its own
    [room_id]. *)
Theorem get_room_answers_requested_id trace r room :
  get_room r (globals (run trace)) = inr room → room_id room = r.
Proof.
  unfold get_room. intros Hg.
  eapply (run_invariant (λ sv, rooms_keyed (globals sv))).
  - intros r' room'. simpl. by rewrite lookup_empty.
  - apply step_keyed.
  - destruct (active_rooms (globals (run trace)) !! r) as [room'|] eqn:Hl; [|done].
    injection Hg as <-. exact Hl.
Qed.

Lemma get_room_answers_requested_id_witness :
  room_id (mkCallRoom "abc" 1 ["A"; "B"]) = "abc".
Proof.
  apply (get_room_answers_requested_id two_in_abc). by vm_compute.
Defined.

Lemma delete_room_membership r s :
  membership_consistent s → membership_consistent (delete_room r s).2.
Proof.
  intros Hinv. unfold delete_room.
  destruct (active_rooms s !! r) as [room|] eqn:Hr; [|done].
  set (s1 := broadcast_to_room r RoomClosed None s).
  assert (membership_consistent s1) as H1.
  { intros u r'. unfold s1, participants_of.
    rewrite broadcast_to_room_user_rooms, broadcast_to_room_rooms. apply Hinv. }
  set (s2 := foldl _ s1 _).
  assert (membership_consistent s2) as H2 by by apply cleanup_loop_membership.
  destruct (active_rooms s2 !! r) eqn:Hr2; [|done].
  intros u r' Hu. cbn [snd] in *. st_simpl.
  assert (r' ≠ r) as Hne.
  { intros ->. unfold s2 in Hu. rewrite cleanup_loop_user_rooms in Hu.
    case_decide as Hin; [done|]. apply Hin. by apply H1. }
  specialize (H2 u r' Hu). unfold participants_of in *. st_simpl.
  by rewrite lookup_delete_ne.
Qed.

Lemma websocket_endpoint_receive_membership u data now s :
  membership_consistent s →
  membership_consistent (websocket_endpoint_receive u data now s).2.
Proof.
  intros Hinv. unfold websocket_endpoint_receive.
  destruct data as [md|]; [|by apply cleanup_user_membership].
  assert (membership_consistent (handle_signaling_message u md now s).2) as Hh.
  { destruct (handle_signaling_message_cases u md now s) as [(r & _ & ->)|(_ & Hr & _ & Hm & _)].
    - by apply join_room_membership.
    - intros v r'. unfold participants_of. rewrite Hm, Hr. apply Hinv. }
  destruct (handle_signaling_message u md now s) as [[|e] s']; [done|].
  by apply cleanup_user_membership.
Qed.

Lemma run_from_membership (trace : list event) : ∀ sv,
  membership_consistent (globals sv) → fresh_from sv trace = true →
  membership_consistent (globals (foldl step sv trace)).
Proof.
  induction trace as [|e trace IH]; intros sv Hinv Hfresh; [done|].
  cbn [fresh_from] in Hfresh. apply andb_true_iff in Hfresh as [He Hrest].
  cbn [foldl]. apply IH; [|done]. clear IH Hrest.
  destruct e as [u|ws data now|ws|ws|uuid now|r]; cbn [step].
  - done.
  - destruct (handlers sv !! ws) as [u|]; [|done].
    pose proof (websocket_endpoint_receive_membership u data now _ Hinv) as H.
    by destruct (websocket_endpoint_receive u data now (globals sv)) as [[|] s'].
  - destruct (handlers sv !! ws) as [u|]; [|done]. by apply cleanup_user_membership.
  - done.
  - cbn [globals]. intros u r Hu. unfold create_room in *. st_simpl.
    specialize (Hinv u r Hu). unfold participants_of in *. st_simpl.
    destruct (decide (uuid = r)) as [->|Hne].
    + destruct (active_rooms (globals sv) !! r); [done|]. by apply elem_of_nil in Hinv.
    + by rewrite lookup_insert_ne.
  - by apply delete_room_membership.
Qed.

(** X19: in every run in which [create_room] never draws the identifier
    of a room that exists, whoever the membership map sends to a room is
    listed in that room: [user_rooms] never points at a missing room or at
    a room that does not list the user. *)
Theorem membership_points_into_rooms trace u r :
  fresh_uuids trace = true →
  user_rooms (globals (run trace)) !! u = Some r →
  u ∈ participants_of (globals (run trace)) r.
Proof.
  intros Hfresh. apply (run_from_membership trace boot); [|done].
  intros v r'. simpl. by rewrite lookup_empty.
Qed.

Lemma membership_points_into_rooms_witness :
  "A" ∈ participants_of (globals (run (second_join ++ [PostRooms "u1" 5; DeleteRooms "u1"]))) "r2".
Proof.
  apply membership_points_into_rooms; by vm_compute.
Defined.

(** ** The REST endpoints *)

(** X20: [create_room] followed by [get_room]: the new identifier
    answers with an empty room stamped with the creation time, every other
    identifier answers as before, and connections and memberships are not
    touched; the health check counts one room more when the identifier was
    free and the same number when a room was replaced. *)
Theorem create_room_then_get_room uuid now s :
  let s' := create_room uuid now s in
  get_room uuid s' = inr (mkCallRoom uuid now []) ∧
  (∀ r, r ≠ uuid → get_room r s' = get_room r s) ∧
  websocket_connections s' = websocket_connections s ∧
  user_rooms s' = user_rooms s ∧
  health_active_rooms (root s') =
    match active_rooms s !! uuid with
    | None => S (health_active_rooms (root s))
    | Some _ => health_active_rooms (root s)
    end.
Proof.
  cbv zeta. unfold get_room, create_room, root. st_simpl. simpl.
  rewrite lookup_insert_eq. repeat split.
  - intros r Hne. by rewrite lookup_insert_ne.
  - destruct (active_rooms s !! uuid) as [room|] eqn:Hr.
    + rewrite map_size_insert_Some; eauto.
    + by rewrite map_size_insert_None.
Qed.

(** X21: the counter [connected_users] of the health check: accepting a
    session under a user identifier that is already registered replaces
    the handle and leaves the counter as it is, accepting a new identifier
    adds one, and [cleanup_user] of a registered user takes one off. *)
Theorem connected_users_counter u ws s :
  health_connected_users (root (websocket_endpoint_accept u ws s)) =
    match websocket_connections s !! u with
    | None => S (health_connected_users (root s))
    | Some _ => health_connected_users (root s)
    end ∧
  websocket_connections (websocket_endpoint_accept u ws s) !! u = Some ws ∧
  S (health_connected_users (root (cleanup_user u (websocket_endpoint_accept u ws s)))) =
    health_connected_users (root (websocket_endpoint_accept u ws s)).
Proof.
  unfold root. cbn [health_connected_users]. rewrite cleanup_user_connections.
  unfold websocket_endpoint_accept. st_simpl. repeat split.
  - destruct (websocket_connections s !! u) as [old|] eqn:Hu.
    + rewrite map_size_insert_Some; eauto.
    + by rewrite map_size_insert_None.
  - apply lookup_insert_eq.
  - rewrite map_size_delete_Some by (rewrite lookup_insert_eq; eauto).
    assert (0 < size (<[u:=ws]> (websocket_connections s))); [|lia].
    destruct (websocket_connections s !! u) eqn:Hu.
    + rewrite map_size_insert_Some by eauto.
      destruct (decide (size (websocket_connections s) = 0)) as [H0|]; [|lia].
      apply map_size_empty_inv in H0. rewrite H0 in Hu. by rewrite lookup_empty in Hu.
    + rewrite map_size_insert_None by done. lia.
Qed.

(** X22: [list_rooms] has one entry per room, as many as the health check
    counts, and its entries are exactly the summaries (identifier,
    creation time, number of participants) of the rooms [get_room]
    answers for. *)
Theorem list_rooms_entries s :
  length (list_rooms s) = health_active_rooms (root s) ∧
  (∀ x, x ∈ list_rooms s ↔
        ∃ r room, get_room r s = inr room ∧
          x = mkRoomSummary (room_id room) (created_at room) (length (participants room))).
Proof.
  unfold list_rooms, root, get_room. simpl. split.
  - by rewrite !length_fmap, length_map_to_list.
  - intros x. rewrite list_elem_of_fmap. split.
    + intros (room & -> & Hroom). apply list_elem_of_fmap in Hroom as ([r room'] & -> & Hin).
      apply elem_of_map_to_list in Hin. exists r, room'. simpl. by rewrite Hin.
    + intros (r & room & Hg & ->). exists room. split; [done|].
      destruct (active_rooms s !! r) as [room'|] eqn:Hr; [|done]. injection Hg as ->.
      apply list_elem_of_fmap. exists (r, room). split; [done|]. by apply elem_of_map_to_list.
Qed.

(** ** What does hold of cleanup and forwarding *)

(** X23: in every state the server can reach, [cleanup_user] leaves the
    user without connection entry and without membership entry, and
    absent from the list of the room the membership map named, provided
    that room's identifier is not the empty string. *)
Theorem cleanup_user_clears_current_room trace u r :
  user_rooms (globals (run trace)) !! u = Some r → r ≠ "" →
  let s' := cleanup_user u (globals (run trace)) in
  websocket_connections s' !! u = None ∧
  user_rooms s' !! u = None ∧
  u ∉ participants_of s' r.
Proof.
  intros Hr Hne. cbv zeta.
  split; [apply cleanup_user_unregisters|]. split; [apply cleanup_user_unregisters|].
  apply cleanup_user_leaves_current_room; [apply run_distinct|done|done].
Qed.

Lemma cleanup_user_clears_current_room_witness :
  "A" ∉ participants_of (cleanup_user "A" (globals (run two_in_abc))) "abc".
Proof.
  apply (cleanup_user_clears_current_room two_in_abc "A" "abc").
  - by vm_compute.
  - discriminate.
Defined.

(** X24: an [offer], [answer] or [ice-candidate] frame of a sender whose
    membership names an existing room with a non-empty identifier is
    answered without error by one fan-out to that room, excluding the
    sender, of a message with the same type, the [data] of the frame as it
    came ([None] when the frame has none) and [from_user] the sender. *)
Theorem signaling_frame_forwarded u fields t now s r :
  dict_get fields "type" = JStr t → t ∈ signaling_types →
  user_rooms s !! u = Some r → r ≠ "" → is_Some (active_rooms s !! r) →
  let res := handle_signaling_message u (JObj fields) now s in
  res.1 = Returned ∧
  new_frames s res.2 =
    fanout s (Signal t (dict_get fields "data") u) (Some u) (participants_of s r).
Proof.
  intros Ht Hin Hr Hne Hroom. cbv zeta.
  rewrite (handle_signaling_forward u fields t now s r) by done.
  split; [done|]. apply new_frames_app. cbn [snd]. by rewrite broadcast_to_room_sent.
Qed.

Lemma signaling_frame_forwarded_witness :
  let s := globals (run two_in_abc) in
  new_frames s (handle_signaling_message "B"
                  (JObj [("type", JStr "ice-candidate"); ("data", JNum 7)]) 3 s).2
  = [mkDelivery "A" 0 (Signal "ice-candidate" (JNum 7) "B")].
Proof.
  cbv zeta.
  destruct (signaling_frame_forwarded "B" [("type", JStr "ice-candidate"); ("data", JNum 7)]
              "ice-candidate" 3 (globals (run two_in_abc)) "abc") as [_ H].
  - reflexivity.
  - apply list_elem_of_In. simpl. tauto.
  - by vm_compute.
  - discriminate.
  - vm_compute. eauto.
  - rewrite H. by vm_compute.
Defined.

(** X25: such a frame from a sender with no membership entry, or whose
    entry names a room that no longer exists, is dropped: no error, no
    frame handed over, no change of state. *)
Theorem signaling_frame_dropped u fields t now s :
  dict_get fields "type" = JStr t → t ∈ signaling_types →
  (user_rooms s !! u = None ∨
   ∃ r, user_rooms s !! u = Some r ∧ active_rooms s !! r = None) →
  handle_signaling_message u (JObj fields) now s = (Returned, s).
Proof. apply handle_signaling_dropped. Qed.

Lemma signaling_frame_dropped_witness :
  let s := globals (run [Connect "A"]) in
  handle_signaling_message "A" (JObj [("type", JStr "offer")]) 1 s = (Returned, s).
Proof.
  cbv zeta. apply (signaling_frame_dropped "A" [("type", JStr "offer")] "offer").
  - reflexivity.
  - apply list_elem_of_In. simpl. tauto.
  - left. by vm_compute.
Defined.

(** ** Instances *)

Lemma broadcast_to_room_writes_nothing_witness :
  let s := globals (run two_in_abc) in
  broadcast_to_room "nope" RoomClosed None s = s.
Proof.
  cbv zeta.
  destruct (broadcast_to_room_writes_nothing "nope" RoomClosed None (globals (run two_in_abc)))
    as (_ & _ & _ & _ & H).
  apply H. by vm_compute.
Defined.

Lemma broadcast_to_room_order_witness :
  let s := globals (run two_in_abc) in
  (to_user <$> new_frames s (broadcast_to_room "abc" RoomClosed None s))
    `sublist_of` ["A"; "B"].
Proof.
  cbv zeta.
  destruct (broadcast_to_room_order "abc" RoomClosed None (globals (run two_in_abc))) as [H _].
  cbv zeta in H. revert H.
  by replace (participants_of (globals (run two_in_abc)) "abc") with ["A"; "B"] by by vm_compute.
Defined.

Lemma join_room_raises_iff_witness :
  (join_room "A" JNull 1 (globals (run [Connect "A"]))).1 ≠ Returned.
Proof.
  apply join_room_raises_iff. left. intros r. discriminate.
Defined.

Lemma create_room_then_get_room_witness :
  let s := globals (run two_in_abc) in
  get_room "abc" (create_room "u1" 5 s) = get_room "abc" s.
Proof.
  cbv zeta.
  destruct (create_room_then_get_room "u1" 5 (globals (run two_in_abc))) as (_ & H & _).
  apply H. discriminate.
Defined.

Lemma list_rooms_entries_witness :
  mkRoomSummary "abc" 1 2 ∈ list_rooms (globals (run two_in_abc)).
Proof.
  apply list_rooms_entries. exists "abc", (mkCallRoom "abc" 1 ["A"; "B"]).
  split; [by vm_compute | reflexivity].
Defined.
